(** * Subscription revenue calculator: the metrics engine of [App.js]

    A shallow embedding of the data pipeline of
    [src/subscription-calculator/src/App.js]:

    - the [complete] callback of [onDrop] (schema validation and the
      normalisation of the parsed rows, lines 79-118),
    - [filteredData], [summary] and [funnelData] of [Dashboard]
      (lines 244-282),
    - the helper [safeDivide] (line 20),

    together with the ECMAScript built-ins they call ([parseInt],
    [parseFloat], [new Date], the Number operators and [||]).

    JavaScript Numbers are IEEE 754 binary64 values.  They are modelled
    by [spec_float] at precision 53 and maximal exponent 1024: a pure,
    executable description of binary64 with a single NaN, which is all
    a JavaScript program can observe. *)

From Stdlib Require Import ZArith Bool List Lia Ascii String.
From Stdlib Require Import Floats.SpecFloat.
From stdpp Require Import base option list gmap strings pretty.

Local Open Scope string_scope.
Local Open Scope Z_scope.

(* ===================================================================== *)
(** * ECMAScript Numbers *)
(* ===================================================================== *)

Definition number : Type := spec_float.

Definition prec : Z := 53.
Definition emax : Z := 1024.

Definition NaN : number := S754_nan.
Definition Infinity : number := S754_infinity false.
Definition pos0 : number := S754_zero false.

(** Number::add, ::subtract, ::multiply, ::divide, unary minus. *)
Definition num_add : number -> number -> number := SFadd prec emax.
Definition num_sub : number -> number -> number := SFsub prec emax.
Definition num_mul : number -> number -> number := SFmul prec emax.
Definition num_div : number -> number -> number := SFdiv prec emax.
Definition num_neg : number -> number := SFopp.

(** The Number value of a mathematical integer (round to nearest, ties
    to even; magnitudes past the largest double become an infinity). *)
Definition num_of_Z (z : Z) : number := binary_normalize prec emax z 0 false.

(** The Number value of the non-negative rational [m / d], [0 < d]. *)
Definition num_of_ratio (m d : Z) : number :=
  match m with
  | Z0 => pos0
  | _ =>
      let '(q, e, l) := SFdiv_core_binary prec emax m 0 d 0 in
      binary_round_aux prec emax false q e l
  end.

(** The Number value of [m * 10 ^ e10], for [0 <= m]. *)
Definition num_of_decimal (m e10 : Z) : number :=
  if 0 <=? e10 then num_of_Z (m * 10 ^ e10)
  else num_of_ratio m (10 ^ (- e10)).

(** ToBoolean on a Number: [+0], [-0] and [NaN] are the falsy ones. *)
Definition ToBoolean (x : number) : bool :=
  match x with
  | S754_zero _ | S754_nan => false
  | S754_infinity _ | S754_finite _ _ _ => true
  end.

(** [x || y] on Numbers. *)
Definition js_or (x y : number) : number := if ToBoolean x then x else y.

Definition isNaN (x : number) : bool :=
  match x with S754_nan => true | _ => false end.

Definition isFinite (x : number) : bool :=
  match x with
  | S754_nan | S754_infinity _ => false
  | S754_zero _ | S754_finite _ _ _ => true
  end.

(** [x == 0] on Numbers: both zeros, and nothing else. *)
Definition isZero (x : number) : bool :=
  match x with S754_zero _ => true | _ => false end.

(** [x < 0] on Numbers. *)
Definition isNegative (x : number) : bool := SFltb x pos0.

(* ===================================================================== *)
(** * Strings to Numbers: [parseInt(s, 10)] and [parseFloat(s)]

    A string is a sequence of code units; the embedding keeps the code
    units 0..255, which cover every character the numeric grammars
    mention. *)
(* ===================================================================== *)

Definition code (c : ascii) : Z := Z.of_N (N_of_ascii c).

(** StrWhiteSpaceChar, restricted to the code units of the embedding:
    TAB, LF, VT, FF, CR, SP and NBSP. *)
Definition isStrWhiteSpaceChar (c : ascii) : bool :=
  let n := code c in
  ((9 <=? n) && (n <=? 13)) || (n =? 32) || (n =? 160).

Definition isDigit (c : ascii) : bool :=
  let n := code c in (48 <=? n) && (n <=? 57).

Definition digitValue (c : ascii) : Z := code c - 48.

(** TrimString(s, start). *)
Fixpoint trimStart (s : string) : string :=
  match s with
  | String c s' => if isStrWhiteSpaceChar c then trimStart s' else s
  | EmptyString => EmptyString
  end.

(** The longest prefix of decimal digits, read left to right on top of
    the value [acc] of the digits already seen; returns the value, the
    number of digits consumed and the rest of the string. *)
Fixpoint readDigits (acc : Z) (n : nat) (s : string) : Z * nat * string :=
  match s with
  | String c s' =>
      if isDigit c then readDigits (10 * acc + digitValue c) (S n) s'
      else (acc, n, s)
  | EmptyString => (acc, n, s)
  end.

(** Whether the string starts with the code unit [c]; the string
    without its first code unit. *)
Definition startsWith (c : ascii) (s : string) : bool :=
  match s with
  | String c' _ => Ascii.eqb c' c
  | EmptyString => false
  end.

Definition tail (s : string) : string :=
  match s with
  | String _ s' => s'
  | EmptyString => EmptyString
  end.

(** An optional sign: [true] for a leading minus. *)
Definition readSign (s : string) : bool * string :=
  match s with
  | String c s' =>
      if Ascii.eqb c "-" then (true, s')
      else if Ascii.eqb c "+" then (false, s')
      else (false, s)
  | EmptyString => (false, s)
  end.

Definition applySign (neg : bool) (x : number) : number :=
  if neg then num_neg x else x.

(** ToString on the two kinds of value a parsed row can hold under a
    key: a string, or nothing ([undefined]). *)
Definition ToString (v : option string) : string :=
  match v with
  | Some s => s
  | None => "undefined"
  end.

(** [parseInt(string, 10)] on a string. *)
Definition parseIntStr (input : string) : number :=
  let '(neg, s) := readSign (trimStart input) in
  let '(mathInt, ndigits, _) := readDigits 0 0 s in
  match ndigits with
  | O => NaN
  | _ => applySign neg (num_of_Z mathInt)
  end.

Definition parseInt (v : option string) : number := parseIntStr (ToString v).

(** ExponentPart of StrDecimalLiteral: [e] or [E], an optional sign and
    at least one digit; when the digits are missing the exponent is not
    part of the literal and nothing is consumed. *)
Definition readExponent (s : string) : Z :=
  match s with
  | String c s' =>
      if Ascii.eqb c "e" || Ascii.eqb c "E" then
        let '(neg, s'') := readSign s' in
        let '(e, n, _) := readDigits 0 0 s'' in
        match n with
        | O => 0
        | _ => if neg then - e else e
        end
      else 0
  | EmptyString => 0
  end.

(** StrUnsignedDecimalLiteral: [Infinity], or digits with an optional
    fraction and exponent, or a fraction that starts with the dot; the
    longest prefix of the string that fits is the literal. *)
Definition readUnsignedDecimal (s : string) : number :=
  if String.prefix "Infinity" s then Infinity
  else
    let '(ip, n1, r1) := readDigits 0 0 s in
    if startsWith "." r1 then
      let '(m, n2, r3) := readDigits ip 0 (tail r1) in
      match n1, n2 with
      | O, O => NaN
      | _, _ => num_of_decimal m (readExponent r3 - Z.of_nat n2)
      end
    else
      match n1 with
      | O => NaN
      | _ => num_of_decimal ip (readExponent r1)
      end.

(** [parseFloat(string)] on a string. *)
Definition parseFloatStr (input : string) : number :=
  let '(neg, s) := readSign (trimStart input) in
  applySign neg (readUnsignedDecimal s).

Definition parseFloat (v : option string) : number :=
  parseFloatStr (ToString v).

(* ===================================================================== *)
(** * Dates

    A Date object holds a time value: an integral number of
    milliseconds since the epoch, or NaN, in which case the object is an
    "Invalid Date". *)
(* ===================================================================== *)

Inductive Date : Type :=
  | InvalidDate
  | TimeValue (ms : Z).

(** [a >= b] and [a <= b] on two Date objects: both operands are
    converted to their time values and compared as Numbers, so the
    answer is [false] as soon as one of them is NaN. *)
Definition date_ge (a b : Date) : bool :=
  match a, b with
  | TimeValue x, TimeValue y => y <=? x
  | _, _ => false
  end.

Definition date_le (a b : Date) : bool :=
  match a, b with
  | TimeValue x, TimeValue y => x <=? y
  | _, _ => false
  end.

(** A sample [Date.parse]: the date-only form [YYYY-MM-DD] of the
    ECMAScript date-time string format, read as UTC midnight.  What
    [Date.parse] does on other strings is left to the implementation by
    ECMAScript; the development below is parametric in the parser and
    uses this one to run examples. *)
Definition isLeapYear (y : Z) : bool :=
  ((y mod 4 =? 0) && negb (y mod 100 =? 0)) || (y mod 400 =? 0).

Definition daysInMonth (y m : Z) : Z :=
  if m =? 2 then (if isLeapYear y then 29 else 28)
  else if (m =? 4) || (m =? 6) || (m =? 9) || (m =? 11) then 30
  else 31.

(** Days from 1970-01-01 to the civil date [y-m-d]. *)
Definition daysFromCivil (y m d : Z) : Z :=
  let y' := if m <=? 2 then y - 1 else y in
  let era := y' / 400 in
  let yoe := y' - era * 400 in
  let mp := (m + 9) mod 12 in
  let doy := (153 * mp + 2) / 5 + d - 1 in
  let doe := yoe * 365 + yoe / 4 - yoe / 100 + doy in
  era * 146097 + doe - 719468.

Definition msPerDay : Z := 86400000.

Definition isoDateOnlyParse (s : string) : Date :=
  let '(y, n1, r1) := readDigits 0 0 s in
  match n1, r1 with
  | 4%nat, String "-" r2 =>
      let '(m, n2, r3) := readDigits 0 0 r2 in
      match n2, r3 with
      | 2%nat, String "-" r4 =>
          let '(d, n3, r5) := readDigits 0 0 r4 in
          match n3, r5 with
          | 2%nat, EmptyString =>
              if (1 <=? m) && (m <=? 12) && (1 <=? d) && (d <=? daysInMonth y m)
              then TimeValue (daysFromCivil y m d * msPerDay)
              else InvalidDate
          | _, _ => InvalidDate
          end
      | _, _ => InvalidDate
      end
  | _, _ => InvalidDate
  end.

(* ===================================================================== *)
(** * Completions: normal results and thrown errors *)
(* ===================================================================== *)

Inductive completion (A : Type) : Type :=
  | Normal (a : A)
  | Throw (message : string).
Arguments Normal {A} a.
Arguments Throw {A} message.

(** [try { c } catch (e) { handler(e.message) }]. *)
Definition try_catch {A} (c : completion A) (handler : string -> completion A)
  : completion A :=
  match c with
  | Normal a => Normal a
  | Throw message => handler message
  end.

(** [array.map((x, index) => f(index, x))] when the callback can throw:
    the elements are visited in order, and the first throw ends the
    call. *)
Fixpoint map_indexed {A B} (f : nat -> A -> completion B) (index : nat)
    (l : list A) : completion (list B) :=
  match l with
  | [] => Normal []
  | x :: l' =>
      match f index x with
      | Throw message => Throw message
      | Normal y =>
          match map_indexed f (S index) l' with
          | Throw message => Throw message
          | Normal ys => Normal (y :: ys)
          end
      end
  end.

(* ===================================================================== *)
(** * The data model *)
(* ===================================================================== *)

(** A row as PapaParse hands it over with [header: true]: an object
    from column names to the cells' text. *)
Definition RawRow : Type := gmap string string.

(** The value under the key [id]: the row's index, unless the row has a
    column of that name, whose cell then replaces it (the spread
    [...row] comes after [id: index]). *)
Inductive IdValue : Type :=
  | IdIndex (index : nat)
  | IdCell (cell : string).

(** The object built for one row (lines 98-110).  The nine typed keys
    come after the spread, so they shadow the row's cells of the same
    name; [cells] keeps the spread, under which every other key is
    looked up. *)
Record CampaignRecord : Type := {
  id : IdValue;
  cells : gmap string string;
  Clicks : number;
  Cost : number;
  Avg_CPC : number;
  Installs : number;
  Trials : number;
  Subscriptions : number;
  Subscription_Value : number;
  Start_Date : Date;
  End_Date : Date
}.

(** [item['Ad Group']]. *)
Definition Ad_Group (item : CampaignRecord) : option string :=
  cells item !! "Ad Group".

Record DateRange : Type := {
  from : option Date;
  to : option Date
}.

(** The state [filters] of [Dashboard]. *)
Record Filters : Type := {
  dateRange : DateRange;
  adGroup : string
}.

(** The initial state of [filters], which [clearFilters] restores. *)
Definition noFilters : Filters :=
  {| dateRange := {| from := None; to := None |};
     adGroup := "All Ad Groups" |}.

(* ===================================================================== *)
(** * Loading: the [complete] callback of [onDrop] *)
(* ===================================================================== *)

Definition REQUIRED_COLUMNS : list string :=
  ["Clicks"; "Cost"; "Avg. CPC"; "Installs"; "Trials"; "Subscriptions";
   "Subscription Value"; "Start Date"; "End Date"; "Ad Group"].

Definition FUNNEL_STAGES : list string :=
  ["Clicks"; "Installs"; "Trials"; "Subscriptions"].

(** [headers.includes(col)]. *)
Definition includes (headers : list string) (col : string) : bool :=
  existsb (String.eqb col) headers.

(** [array.join(sep)] on strings. *)
Fixpoint join (sep : string) (l : list string) : string :=
  match l with
  | [] => ""
  | [x] => x
  | x :: l' => x ++ sep ++ join sep l'
  end.

Definition missingColumns (headers : list string) : list string :=
  List.filter (fun col => negb (includes headers col)) REQUIRED_COLUMNS.

(** What the callback does with a parse result: it reports an error
    through [setAppError], hands the records to [onDataLoaded], or lets
    an exception escape. *)
Inductive LoadResult : Type :=
  | AppError (message : string)
  | DataLoaded (processedData : list CampaignRecord)
  | Uncaught (message : string).

Section Loading.

(** [Date.parse] of the host. *)
Variable Date_parse : string -> Date.

(** [new Date(v)] for a cell or [undefined]: a string is parsed, and
    [undefined] converts to NaN. *)
Definition newDate (v : option string) : Date :=
  match v with
  | Some s => Date_parse s
  | None => InvalidDate
  end.

(** The callback of [data.map] (lines 96-114). *)
Definition processRow (index : nat) (row : RawRow) : completion CampaignRecord :=
  try_catch
    (Normal
       {| id := match row !! "id" with
                | Some cell => IdCell cell
                | None => IdIndex index
                end;
          cells := row;
          Clicks := js_or (parseInt (row !! "Clicks")) pos0;
          Cost := js_or (parseFloat (row !! "Cost")) pos0;
          Avg_CPC := js_or (parseFloat (row !! "Avg. CPC")) pos0;
          Installs := js_or (parseInt (row !! "Installs")) pos0;
          Trials := js_or (parseInt (row !! "Trials")) pos0;
          Subscriptions := js_or (parseInt (row !! "Subscriptions")) pos0;
          Subscription_Value :=
            js_or (parseFloat (row !! "Subscription Value")) pos0;
          Start_Date := newDate (row !! "Start Date");
          End_Date := newDate (row !! "End Date") |})
    (fun message =>
       Throw ("Error processing row " ++ pretty (index + 2)%nat ++ ": "
              ++ message)).

Definition processedData (data : list RawRow)
  : completion (list CampaignRecord) :=
  map_indexed processRow 0 data.

(** The callback [complete] (lines 79-118): [data] is [results.data],
    [errors] the messages of [results.errors], [headers] is
    [results.meta.fields]. *)
Definition complete (data : list RawRow) (errors : list string)
    (headers : list string) : LoadResult :=
  match errors with
  | message :: _ => AppError ("Error parsing CSV: " ++ message)
  | [] =>
      let missing := missingColumns headers in
      if (0 <? length missing)%nat then
        AppError ("Missing required columns: " ++ join ", " missing)
      else
        match processedData data with
        | Normal records => DataLoaded records
        | Throw message => Uncaught message
        end
  end.

End Loading.

(* ===================================================================== *)
(** * The dashboard: [filteredData], [summary], [funnelData] *)
(* ===================================================================== *)

(** [safeDivide] (line 20). *)
Definition safeDivide (numerator denominator : number) : number :=
  if ToBoolean denominator then num_div numerator denominator else pos0.

(** The two conjuncts of the filter callback (lines 247-248).  A Date
    object is always truthy, so [!filters.dateRange.from] holds exactly
    when the bound is [undefined]. *)
Definition inDateRange (filters : Filters) (item : CampaignRecord) : bool :=
  let itemDate := Start_Date item in
  match from (dateRange filters) with
  | None => true
  | Some lower =>
      date_ge itemDate lower
      && match to (dateRange filters) with
         | None => true
         | Some upper => date_le itemDate upper
         end
  end.

(** [item['Ad Group'] === filters.adGroup]: a missing cell is
    [undefined], which is strictly equal to no string. *)
Definition inAdGroup (filters : Filters) (item : CampaignRecord) : bool :=
  String.eqb (adGroup filters) "All Ad Groups"
  || match Ad_Group item with
     | Some group => String.eqb group (adGroup filters)
     | None => false
     end.

Definition filteredData (data : list CampaignRecord) (filters : Filters)
  : list CampaignRecord :=
  List.filter (fun item => inDateRange filters item && inAdGroup filters item)
    data.

(** The accumulator of the reduction (line 254). *)
Module Totals.
Record t : Type := {
  Clicks : number;
  Cost : number;
  Installs : number;
  Trials : number;
  Subscriptions : number;
  Subscription_Value : number
}.
End Totals.

Definition initial : Totals.t :=
  {| Totals.Clicks := pos0; Totals.Cost := pos0; Totals.Installs := pos0;
     Totals.Trials := pos0; Totals.Subscriptions := pos0;
     Totals.Subscription_Value := pos0 |}.

(** The reducer (lines 255-263). *)
Definition accumulate (acc : Totals.t) (row : CampaignRecord) : Totals.t :=
  {| Totals.Clicks := num_add (Totals.Clicks acc) (Clicks row);
     Totals.Cost := num_add (Totals.Cost acc) (Cost row);
     Totals.Installs := num_add (Totals.Installs acc) (Installs row);
     Totals.Trials := num_add (Totals.Trials acc) (Trials row);
     Totals.Subscriptions :=
       num_add (Totals.Subscriptions acc) (Subscriptions row);
     Totals.Subscription_Value :=
       num_add (Totals.Subscription_Value acc)
         (num_mul (Subscriptions row) (Subscription_Value row)) |}.

Definition totals (filteredData : list CampaignRecord) : Totals.t :=
  fold_left accumulate filteredData initial.

(** The object returned by [summary] (lines 265-276): the totals, then
    the nine ratios. *)
Module Summary.
Record t : Type := {
  Clicks : number;
  Cost : number;
  Installs : number;
  Trials : number;
  Subscriptions : number;
  Subscription_Value : number;
  cpi : number;
  installRate : number;
  installToTrialRate : number;
  trialCost : number;
  installToPaidRate : number;
  cac : number;
  valueCostRatio : number;
  overallConversion : number;
  roi : number
}.

(** [summary[key]]. *)
Definition get (s : t) (key : string) : option number :=
  if String.eqb key "Clicks" then Some (Clicks s)
  else if String.eqb key "Cost" then Some (Cost s)
  else if String.eqb key "Installs" then Some (Installs s)
  else if String.eqb key "Trials" then Some (Trials s)
  else if String.eqb key "Subscriptions" then Some (Subscriptions s)
  else if String.eqb key "Subscription Value" then Some (Subscription_Value s)
  else if String.eqb key "cpi" then Some (cpi s)
  else if String.eqb key "installRate" then Some (installRate s)
  else if String.eqb key "installToTrialRate" then Some (installToTrialRate s)
  else if String.eqb key "trialCost" then Some (trialCost s)
  else if String.eqb key "installToPaidRate" then Some (installToPaidRate s)
  else if String.eqb key "cac" then Some (cac s)
  else if String.eqb key "valueCostRatio" then Some (valueCostRatio s)
  else if String.eqb key "overallConversion" then Some (overallConversion s)
  else if String.eqb key "roi" then Some (roi s)
  else None.
End Summary.

Definition summary (filteredData : list CampaignRecord) : Summary.t :=
  let totals := totals filteredData in
  {| Summary.Clicks := Totals.Clicks totals;
     Summary.Cost := Totals.Cost totals;
     Summary.Installs := Totals.Installs totals;
     Summary.Trials := Totals.Trials totals;
     Summary.Subscriptions := Totals.Subscriptions totals;
     Summary.Subscription_Value := Totals.Subscription_Value totals;
     Summary.cpi := safeDivide (Totals.Cost totals) (Totals.Installs totals);
     Summary.installRate :=
       safeDivide (Totals.Installs totals) (Totals.Clicks totals);
     Summary.installToTrialRate :=
       safeDivide (Totals.Trials totals) (Totals.Installs totals);
     Summary.trialCost := safeDivide (Totals.Cost totals) (Totals.Trials totals);
     Summary.installToPaidRate :=
       safeDivide (Totals.Subscriptions totals) (Totals.Installs totals);
     Summary.cac :=
       safeDivide (Totals.Cost totals) (Totals.Subscriptions totals);
     Summary.valueCostRatio :=
       safeDivide (Totals.Subscription_Value totals) (Totals.Cost totals);
     Summary.overallConversion :=
       safeDivide (Totals.Subscriptions totals) (Totals.Clicks totals);
     Summary.roi :=
       safeDivide
         (num_sub (Totals.Subscription_Value totals) (Totals.Cost totals))
         (Totals.Cost totals) |}.

(** [funnelData] (lines 279-282): one [{name, value}] per stage. *)
Definition funnelData (s : Summary.t) : list (string * option number) :=
  map (fun stage => (stage, Summary.get s stage)) FUNNEL_STAGES.

(* ===================================================================== *)
(** * Specification-side definitions and sample data *)
(* ===================================================================== *)

(** The sum of a column, taken in row order from [0], as the
    accumulation of a running total computes it. *)
Definition Sigma (column : list number) : number :=
  fold_left num_add column pos0.

(** The revenue of one record: its subscriptions times the value of one
    subscription. *)
Definition revenueOf (r : CampaignRecord) : number :=
  num_mul (Subscriptions r) (Subscription_Value r).

Definition allZeroSummary : Summary.t :=
  {| Summary.Clicks := pos0; Summary.Cost := pos0; Summary.Installs := pos0;
     Summary.Trials := pos0; Summary.Subscriptions := pos0;
     Summary.Subscription_Value := pos0;
     Summary.cpi := pos0; Summary.installRate := pos0;
     Summary.installToTrialRate := pos0; Summary.trialCost := pos0;
     Summary.installToPaidRate := pos0; Summary.cac := pos0;
     Summary.valueCostRatio := pos0; Summary.overallConversion := pos0;
     Summary.roi := pos0 |}.

(** A row in the shape of the required columns. *)
Definition mkRow (clicks cost avgCpc installs trials subscriptions value
    startDate endDate group : string) : RawRow :=
  list_to_map
    [("Clicks", clicks); ("Cost", cost); ("Avg. CPC", avgCpc);
     ("Installs", installs); ("Trials", trials);
     ("Subscriptions", subscriptions); ("Subscription Value", value);
     ("Start Date", startDate); ("End Date", endDate); ("Ad Group", group)].

(** The scenario of the specification: 100 clicks, 50 dollars, 20
    installs, 10 trials, 5 subscriptions worth 20 dollars each. *)
Definition scenarioRow : RawRow :=
  mkRow "100" "50" "0.5" "20" "10" "5" "20" "2024-01-15" "2024-01-31" "Brand".

(** A campaign that was paid for and brought nothing. *)
Definition idleRow : RawRow :=
  mkRow "0" "50" "0" "0" "0" "0" "0" "2024-02-01" "2024-02-29" "Generic".

(** A row whose cost cell is a decimal numeral past the largest double. *)
Definition overflowRow : RawRow :=
  mkRow "1" "1e400" "1" "1" "1" "1" "1" "2024-01-15" "2024-01-31" "Brand".

(** The records of a load, or none when the load did not deliver any. *)
Definition loaded (r : LoadResult) : list CampaignRecord :=
  match r with
  | DataLoaded records => records
  | AppError _ | Uncaught _ => []
  end.

Definition load (data : list RawRow) : LoadResult :=
  complete isoDateOnlyParse data [] REQUIRED_COLUMNS.


(** The two inclusion rules of the filter, in the words of the
    specification. *)
Definition dateInclusion (filters : Filters) (r : CampaignRecord) : Prop :=
  from (dateRange filters) = None
  \/ exists lower,
      from (dateRange filters) = Some lower
      /\ date_ge (Start_Date r) lower = true
      /\ (to (dateRange filters) = None
          \/ exists upper,
              to (dateRange filters) = Some upper
              /\ date_le (Start_Date r) upper = true).

Definition adGroupInclusion (filters : Filters) (r : CampaignRecord) : Prop :=
  adGroup filters = "All Ad Groups" \/ Ad_Group r = Some (adGroup filters).

Definition passes (filters : Filters) (r : CampaignRecord) : Prop :=
  dateInclusion filters r /\ adGroupInclusion filters r.

#[global] Instance dateInclusion_dec filters r : Decision (dateInclusion filters r).
Proof.
  unfold dateInclusion.
  destruct (from (dateRange filters)) as [lower|]; [|left; by left].
  destruct (date_ge (Start_Date r) lower) eqn:Hge.
  - destruct (to (dateRange filters)) as [upper|].
    + destruct (date_le (Start_Date r) upper) eqn:Hle.
      * left. right. exists lower. repeat split; try done. right. by exists upper.
      * right. intros [|(l & [= <-] & _ & [|(u & [= <-] & ?)])]; congruence.
    + left. right. exists lower. repeat split; try done. by left.
  - right. intros [|(l & [= <-] & ? & _)]; congruence.
Defined.

#[global] Instance adGroupInclusion_dec filters r :
  Decision (adGroupInclusion filters r).
Proof. unfold adGroupInclusion. apply _. Defined.

#[global] Instance passes_dec filters r : Decision (passes filters r).
Proof. unfold passes. apply _. Defined.

(** The same record with another end date. *)
Definition withEndDate (g : Date -> Date) (r : CampaignRecord) : CampaignRecord :=
  {| id := id r; cells := cells r; Clicks := Clicks r; Cost := Cost r;
     Avg_CPC := Avg_CPC r; Installs := Installs r; Trials := Trials r;
     Subscriptions := Subscriptions r;
     Subscription_Value := Subscription_Value r;
     Start_Date := Start_Date r; End_Date := g (End_Date r) |}.

(** A row whose start date is not a date. *)
Definition undatedRow : RawRow :=
  mkRow "100" "50" "0.5" "20" "10" "5" "20" "next week" "2024-01-31" "Brand".

Definition since2024 : Filters :=
  {| dateRange := {| from := Some (TimeValue 1704067200000); to := None |};
     adGroup := "All Ad Groups" |}.

(** The record of a row with no cell at all. *)
Definition blankRecord (index : nat) : CampaignRecord :=
  {| id := IdIndex index; cells := ∅;
     Clicks := pos0; Cost := pos0; Avg_CPC := pos0; Installs := pos0;
     Trials := pos0; Subscriptions := pos0; Subscription_Value := pos0;
     Start_Date := InvalidDate; End_Date := InvalidDate |}.

(** A header line that lacks one required column and has the others in
    another order, with a column of its own. *)
Definition headersWithoutValue : list string :=
  ["Ad Group"; "Campaign"; "End Date"; "Start Date"; "Subscriptions";
   "Trials"; "Installs"; "Avg. CPC"; "Cost"; "Clicks"].

(** Whether a string starts with a decimal digit; whether it starts
    with a code unit that can continue a decimal numeral (a digit, the
    dot, or an exponent indicator). *)
Definition startsWithDigit (s : string) : bool :=
  match s with
  | String c _ => isDigit c
  | EmptyString => false
  end.

Definition continuesNumeral (s : string) : bool :=
  startsWithDigit s || startsWith "." s || startsWith "e" s || startsWith "E" s.

(** The keys parsed with [parseInt] and with [parseFloat], each with the
    field of the record that holds the result. *)
Definition integerFields : list (string * (CampaignRecord -> number)) :=
  [("Clicks", Clicks); ("Installs", Installs); ("Trials", Trials);
   ("Subscriptions", Subscriptions)].

Definition realFields : list (string * (CampaignRecord -> number)) :=
  [("Cost", Cost); ("Avg. CPC", Avg_CPC);
   ("Subscription Value", Subscription_Value)].

(** What is left of a cell once leading white space and an optional
    sign are gone; whether a numeral of [parseInt], or of [parseFloat],
    starts there. *)
Definition unsignedPart (s : string) : string := snd (readSign (trimStart s)).

Definition hasIntegerPrefix (s : string) : bool :=
  startsWithDigit (unsignedPart s).

Definition hasDecimalPrefix (s : string) : bool :=
  let t := unsignedPart s in
  String.prefix "Infinity" t
  || startsWithDigit t
  || (startsWith "." t && startsWithDigit (tail t)).

(** What the specification asks of a numeric field, for the parser
    [parse] of its kind: a decimal integer numeral is read as that
    integer; a cell with no number in it, an empty cell and a missing
    cell give [0]; and a negative value stays as it is. *)
Definition normalizedBy (parse : option string -> number) (row : RawRow)
    (record : CampaignRecord) (kf : string * (CampaignRecord -> number)) : Prop :=
  let cell := row !! kf.1 in
  let field := kf.2 record in
  (forall z : Z, cell = Some (pretty z) -> field = num_of_Z z)
  /\ (isNaN (parse cell) = true -> field = pos0)
  /\ (cell = None \/ cell = Some "" -> field = pos0)
  /\ (isNegative (parse cell) = true -> field = parse cell)
  /\ (forall p : positive, cell = Some (pretty (Z.neg p)) ->
        isNegative field = true).

(** What happens to a cell that is only partly a number, for the
    parser [parse] of the field, the test [hasPrefix] that a numeral
    starts the cell and the test [continues] that a string would
    prolong a numeral: without a numeral the field is [0]; with one the
    parser does not answer NaN and the field is its answer (or [0] when
    the answer is a zero); and what follows a decimal integer numeral
    is dropped. *)
Definition truncatedBy (parse : string -> number) (hasPrefix continues : string -> bool)
    (row : RawRow) (record : CampaignRecord)
    (kf : string * (CampaignRecord -> number)) : Prop :=
  forall cell, row !! kf.1 = Some cell ->
    let field := kf.2 record in
    (hasPrefix cell = false -> field = pos0)
    /\ (hasPrefix cell = true ->
          isNaN (parse cell) = false
          /\ (field = parse cell
              \/ (isZero (parse cell) = true /\ field = pos0)))
    /\ (forall (z : Z) (rest : string),
          cell = pretty z ++ rest -> continues rest = false ->
          field = num_of_Z z).

(** A row with a refund: negative cells. *)
Definition refundRow : RawRow :=
  mkRow "-7" "-2.5" "0.5" "20" "10" "-1" "20" "2024-01-15" "2024-01-31" "Brand".

(** A row with cells that are only partly numbers. *)
Definition sloppyRow : RawRow :=
  mkRow "3.9" "12abc" "0.5" "20" "10" "5" "20" "2024-01-15" "2024-01-31" "Brand".

(** A decimal numeral with a fraction: an optional minus, the digits of
    the integer part [a], a dot and the fraction digits [ds]; and the
    Number it denotes. *)
Definition digitsString (ds : list N) : string :=
  fold_right (fun d s => String (pretty_N_char d) s) "" ds.

Definition digitsValue (acc : Z) (ds : list N) : Z :=
  fold_left (fun v d => 10 * v + Z.of_N d) ds acc.

Definition decimalNumeral (neg : bool) (a : N) (ds : list N) : string :=
  (if neg then "-" else "") ++ pretty a ++ "." ++ digitsString ds.

Definition decimalValue (neg : bool) (a : N) (ds : list N) : number :=
  applySign neg
    (num_of_decimal (digitsValue (Z.of_N a) ds) (- Z.of_nat (length ds))).

(* ===================================================================== *)
(** * The rest of [Filters], [Dashboard], [FileUpload] and [App] *)
(* ===================================================================== *)

(** A [Set] of cells, kept as the list of its elements in insertion
    order: [set.add(x)] and [new Set(values)].  Two cells are the same
    element when they are the same string, or both [undefined]. *)
Definition setAdd (elements : list (option string)) (x : option string)
  : list (option string) :=
  if decide (x ∈ elements) then elements else elements ++ [x].

Definition newSet (values : list (option string)) : list (option string) :=
  fold_left setAdd values [].

(** [adGroups] of [Filters] (line 173): the options of the select. *)
Definition adGroups (data : list CampaignRecord) : list (option string) :=
  Some "All Ad Groups" :: newSet (map Ad_Group data).

(** [filteredData.slice(0, 10)] (line 433): the records over which the
    body of the table maps.  What is shown of them is [tableBody] below;
    rendering a record formats its two dates and can throw. *)
Definition tableRows (filteredData : list CampaignRecord)
  : list CampaignRecord :=
  take 10 filteredData.

(** The test for the note below the table, [filteredData.length > 10]
    (line 446). *)
Definition showsFirstRowsNote (filteredData : list CampaignRecord) : bool :=
  (10 <? length filteredData)%nat.

(** The state of [App] (lines 455-456) and its two handlers
    (lines 489-497). *)
Module App.
Record state : Type := {
  data : option (list CampaignRecord);
  error : option string
}.
End App.

Definition initialApp : App.state := {| App.data := None; App.error := None |}.

Definition setError (message : option string) (st : App.state) : App.state :=
  {| App.data := App.data st; App.error := message |}.

Definition handleDataLoaded (loadedData : list CampaignRecord) (st : App.state)
  : App.state :=
  {| App.data := Some loadedData; App.error := None |}.

Definition handleReset (st : App.state) : App.state :=
  {| App.data := None; App.error := None |}.

(** [!data ? <FileUpload/> : <Dashboard/>] (line 512): [null] is falsy
    and every array is truthy, the empty one too. *)
Definition showsDashboard (st : App.state) : bool :=
  match App.data st with
  | Some _ => true
  | None => false
  end.

(** What [Papa.parse] calls back with: [complete(results)] or
    [error(error)]. *)
Inductive PapaResult : Type :=
  | PapaComplete (data : list RawRow) (errors : list string)
      (fields : list string)
  | PapaError (message : string).

Section Upload.

Variable Date_parse : string -> Date.

(** The dropped files, and what [Papa.parse] answers on each. *)
Variable File : Type.
Variable Papa_parse : File -> PapaResult.

(** [onDrop] (lines 66-124) on the state of [App] and the flag [loading]
    of [FileUpload]; [papaLoaded] says whether [window.Papa] is
    defined.  An exception that escapes [complete] leaves the calls
    after it undone. *)
Definition onDrop (papaLoaded : bool) (acceptedFiles : list File)
    (st : App.state) (loading : bool) : App.state * bool :=
  match acceptedFiles with
  | [] => (st, loading)
  | file :: _ =>
      if negb papaLoaded then
        (setError
           (Some "Parsing library not loaded yet. Please try again in a moment.")
           st, loading)
      else
        let st := setError None st in
        match Papa_parse file with
        | PapaComplete data errors fields =>
            match complete Date_parse data errors fields with
            | AppError message => (setError (Some message) st, false)
            | DataLoaded processedData =>
                (handleDataLoaded processedData st, false)
            | Uncaught _ => (st, true)
            end
        | PapaError message =>
            (setError (Some ("CSV parsing error: " ++ message)) st, false)
        end
  end.

End Upload.

(** The filter state with the ad group [group] selected and no date
    range, and the one with the range [range] and every ad group. *)
Definition onlyGroup (group : string) : Filters :=
  {| dateRange := {| from := None; to := None |}; adGroup := group |}.

Definition onlyRange (range : DateRange) : Filters :=
  {| dateRange := range; adGroup := "All Ad Groups" |}.

(** The numeric columns that [summary] reads. *)
Definition aggregated (r : CampaignRecord)
  : number * number * number * number * number * number :=
  (Clicks r, Cost r, Installs r, Trials r, Subscriptions r,
   Subscription_Value r).

(** A record that counts nothing: no click, cost, install, trial or
    subscription, whatever a subscription is worth. *)
Definition countsNothing (r : CampaignRecord) : Prop :=
  Clicks r = pos0 /\ Cost r = pos0 /\ Installs r = pos0 /\ Trials r = pos0
  /\ Subscriptions r = pos0 /\ isFinite (Subscription_Value r) = true.

(** A record whose numeric fields are all finite. *)
Definition finiteFields (r : CampaignRecord) : Prop :=
  Forall (fun kf : string * (CampaignRecord -> number) =>
            isFinite (kf.2 r) = true)
    (integerFields ++ realFields).

(** Three rows in two ad groups, and the same with a column [id]. *)
Definition brandRow : RawRow :=
  mkRow "10" "5" "0.5" "4" "2" "1" "20" "2024-01-10" "2024-01-31" "Brand".
Definition genericRow : RawRow :=
  mkRow "30" "9" "0.3" "6" "3" "2" "15" "2024-02-10" "2024-02-29" "Generic".
Definition threeRows : list RawRow := [brandRow; genericRow; scenarioRow].

(** How many records a select option shows when no date range is set;
    the option of a missing cell selects nothing. *)
Definition selectedCount (data : list CampaignRecord) (option : option string)
  : nat :=
  match option with
  | Some group => length (filteredData data (onlyGroup group))
  | None => 0
  end.

(** The record's id as the callback of [data.map] sets it (line 99 and
    the spread of line 100). *)
Definition idOf (index : nat) (row : RawRow) : IdValue :=
  match row !! "id" with
  | Some cell => IdCell cell
  | None => IdIndex index
  end.

(** A Number whose exponent, if it is finite and not zero, is not below
    the smallest exponent of binary64; and a Number that moreover is
    not [-0]. *)
Definition aboveEmin (x : number) : Prop :=
  match x with
  | S754_finite _ _ e => SpecFloat.emin prec emax <= e
  | _ => True
  end.

Definition settled (x : number) : Prop := x <> S754_zero true /\ aboveEmin x.

(** A record as a load produces it: no numeric field is NaN or [-0],
    and none has an exponent below the smallest one. *)
Definition normalizedRecord (r : CampaignRecord) : Prop :=
  Forall (fun kf : string * (CampaignRecord -> number) =>
            isNaN (kf.2 r) = false /\ settled (kf.2 r))
    (integerFields ++ realFields).

(** The scenario with another cost per click, other dates and another
    ad group. *)
Definition scenarioRow' : RawRow :=
  mkRow "100" "50" "0.75" "20" "10" "5" "20" "2023-06-01" "2023-06-30" "Other".

(** A row of empty cells. *)
Definition blankRow : RawRow :=
  mkRow "" "" "" "" "" "" "" "" "" "".

(** Totals in which no field is [-0] and no exponent is below the
    smallest one. *)
Definition settledTotals (acc : Totals.t) : Prop :=
  settled (Totals.Clicks acc) /\ settled (Totals.Cost acc)
  /\ settled (Totals.Installs acc) /\ settled (Totals.Trials acc)
  /\ settled (Totals.Subscriptions acc)
  /\ settled (Totals.Subscription_Value acc).

(* ===================================================================== *)
(** * The callback of [data.map] on cells of any primitive type *)
(* ===================================================================== *)

(** Sequencing of completions: the first throw ends the evaluation. *)
#[global] Instance completion_ret : MRet completion := @Normal.

#[global] Instance completion_bind : MBind completion :=
  fun A B k c =>
    match c with
    | Normal a => k a
    | Throw message => Throw message
    end.

(** PapaParse fills a row with strings, and [processRow] above is the
    callback on such rows.  The built-ins it calls accept any value:
    they convert their argument first, and the conversion can throw.
    Here the [try] block of lines 97-111 and its handler are embedded
    over rows whose keys hold an arbitrary primitive value other than a
    Number or a BigInt, and over [null] and [undefined] in the place of a
    row, with the operations in the order in which the object literal
    evaluates them. *)
Module Js.

Inductive Value : Type :=
  | Undefined
  | Null
  | Boolean (b : bool)
  | Str (s : string)
  | Symbol.

Inductive Row : Type :=
  | Nullish (isNull : bool)
  | Object (cells : gmap string Value).

(** [row[key]]: reading a property of [null] or [undefined] throws a
    TypeError, and a key that an object lacks reads as [undefined].  The
    wording of the messages of the TypeErrors is the engine's (V8). *)
Definition get (row : Row) (key : string) : completion Value :=
  match row with
  | Nullish isNull =>
      Throw ("Cannot read properties of "
             ++ (if isNull then "null" else "undefined")
             ++ " (reading '" ++ key ++ "')")
  | Object cells => Normal (default Undefined (cells !! key))
  end.

(** ToString. *)
Definition ToString (v : Value) : completion string :=
  match v with
  | Undefined => Normal "undefined"
  | Null => Normal "null"
  | Boolean b => Normal (if b then "true" else "false")
  | Str s => Normal s
  | Symbol => Throw "Cannot convert a Symbol value to a string"
  end.

(** [parseInt(v, 10)] and [parseFloat(v)]: the argument is converted
    with ToString, and the string is read. *)
Definition parseInt (v : Value) : completion number :=
  s ← ToString v; Normal (parseIntStr s).

Definition parseFloat (v : Value) : completion number :=
  s ← ToString v; Normal (parseFloatStr s).

(** The value under the key [id] of the object that is built. *)
Inductive Id : Type :=
  | IdIndex (index : nat)
  | IdCell (v : Value).

Record Item : Type := {
  id : Id;
  cells : gmap string Value;
  Clicks : number;
  Cost : number;
  Avg_CPC : number;
  Installs : number;
  Trials : number;
  Subscriptions : number;
  Subscription_Value : number;
  Start_Date : Date;
  End_Date : Date
}.

(** [{id: index, ...row}]: the spread copies the own properties of an
    object and nothing of [null] or [undefined]. *)
Definition spread (row : Row) : gmap string Value :=
  match row with
  | Nullish _ => ∅
  | Object cells => cells
  end.

Section Loading.

Variable Date_parse : string -> Date.

(** [new Date(v)] with one argument that is a primitive: a string is
    parsed, and any other value is converted with ToNumber, which gives
    NaN for [undefined], 0 for [null] and [false], 1 for [true], and
    throws a TypeError for a Symbol. *)
Definition newDate (v : Value) : completion Date :=
  match v with
  | Str s => Normal (Date_parse s)
  | Undefined => Normal InvalidDate
  | Null => Normal (TimeValue 0)
  | Boolean b => Normal (TimeValue (if b then 1 else 0))
  | Symbol => Throw "Cannot convert a Symbol value to a number"
  end.

(** The callback of [data.map] (lines 96-114). *)
Definition processRow (index : nat) (row : Row) : completion Item :=
  try_catch
    (clicks ← get row "Clicks" ≫= parseInt;
     cost ← get row "Cost" ≫= parseFloat;
     avgCpc ← get row "Avg. CPC" ≫= parseFloat;
     installs ← get row "Installs" ≫= parseInt;
     trials ← get row "Trials" ≫= parseInt;
     subscriptions ← get row "Subscriptions" ≫= parseInt;
     subscriptionValue ← get row "Subscription Value" ≫= parseFloat;
     startDate ← get row "Start Date" ≫= newDate;
     endDate ← get row "End Date" ≫= newDate;
     Normal
       {| id := match spread row !! "id" with
                | Some v => IdCell v
                | None => IdIndex index
                end;
          cells := spread row;
          Clicks := js_or clicks pos0;
          Cost := js_or cost pos0;
          Avg_CPC := js_or avgCpc pos0;
          Installs := js_or installs pos0;
          Trials := js_or trials pos0;
          Subscriptions := js_or subscriptions pos0;
          Subscription_Value := js_or subscriptionValue pos0;
          Start_Date := startDate;
          End_Date := endDate |})
    (fun message =>
       Throw ("Error processing row " ++ pretty (index + 2)%nat ++ ": "
              ++ message)).

Definition processedData (data : list Row) : completion (list Item) :=
  map_indexed processRow 0 data.

End Loading.

End Js.

(** The keys whose values the callback converts. *)
Definition convertedKeys : list string :=
  ["Clicks"; "Cost"; "Avg. CPC"; "Installs"; "Trials"; "Subscriptions";
   "Subscription Value"; "Start Date"; "End Date"].

(** A cell of a row of strings, or [undefined] for a key that the row
    lacks, among the values; a row of strings among the rows of any
    values; and the record of a row of strings among the records. *)
Definition cellValue (cell : option string) : Js.Value :=
  from_option Js.Str Js.Undefined cell.

Definition stringRow (row : RawRow) : Js.Row := Js.Object (Js.Str <$> row).

Definition stringRecord (record : CampaignRecord) : Js.Item :=
  {| Js.id := match id record with
              | IdIndex index => Js.IdIndex index
              | IdCell cell => Js.IdCell (Js.Str cell)
              end;
     Js.cells := Js.Str <$> cells record;
     Js.Clicks := Clicks record;
     Js.Cost := Cost record;
     Js.Avg_CPC := Avg_CPC record;
     Js.Installs := Installs record;
     Js.Trials := Trials record;
     Js.Subscriptions := Subscriptions record;
     Js.Subscription_Value := Subscription_Value record;
     Js.Start_Date := Start_Date record;
     Js.End_Date := End_Date record |}.

(** A row in which a marker stands where the trial count should be. *)
Definition symbolRow : Js.Row :=
  Js.Object (<["Trials" := Js.Symbol]> (Js.Str <$> scenarioRow)).

(** Reading and converting one key of an object: the conversion throws
    when the key holds a Symbol, and only then. *)
Definition converts {A} (read : completion A) (cells : gmap string Js.Value)
    (key : string) : Prop :=
  (cells !! key = Some Js.Symbol /\ exists message, read = Throw message)
  \/ (cells !! key <> Some Js.Symbol /\ exists x, read = Normal x).

(* ===================================================================== *)
(** * The table of [Dashboard] *)
(* ===================================================================== *)

(** [col.includes(text)] on strings. *)
Fixpoint stringIncludes (text col : string) : bool :=
  String.prefix text col
  || match col with
     | EmptyString => false
     | String _ rest => stringIncludes text rest
     end.

(** [row[col]] on a record: a Number under the seven numeric keys and
    under [id] when it is the index, a Date under the two date keys, and
    otherwise the cell of the row, if it has one. *)
Inductive FieldValue : Type :=
  | FNumber (n : number)
  | FDate (d : Date)
  | FCell (cell : option string).

Definition getField (row : CampaignRecord) (col : string) : FieldValue :=
  if String.eqb col "Clicks" then FNumber (Clicks row)
  else if String.eqb col "Cost" then FNumber (Cost row)
  else if String.eqb col "Avg. CPC" then FNumber (Avg_CPC row)
  else if String.eqb col "Installs" then FNumber (Installs row)
  else if String.eqb col "Trials" then FNumber (Trials row)
  else if String.eqb col "Subscriptions" then FNumber (Subscriptions row)
  else if String.eqb col "Subscription Value"
       then FNumber (Subscription_Value row)
  else if String.eqb col "Start Date" then FDate (Start_Date row)
  else if String.eqb col "End Date" then FDate (End_Date row)
  else if String.eqb col "id" then
    match id row with
    | IdIndex index => FNumber (num_of_Z (Z.of_nat index))
    | IdCell cell => FCell (Some cell)
    end
  else FCell (cells row !! col).

Section Table.

(** What the libraries outside this file print: [format] of date-fns
    with the pattern 'yyyy-MM-dd' on a valid date, which is its day in
    the time zone of the host, and on a value that is not a Date;
    [Number.prototype.toLocaleString]; and what React makes of a child
    that is neither a string nor [undefined]. *)
Variable formatDay : Z -> string.
Variable formatOther : FieldValue -> completion string.
Variable toLocaleString : number -> string.
Variable reactChild : FieldValue -> completion (option string).

(** [format(value, 'yyyy-MM-dd')]: date-fns throws the RangeError
    'Invalid time value' on an invalid date. *)
Definition format (value : FieldValue) : completion string :=
  match value with
  | FDate InvalidDate => Throw "Invalid time value"
  | FDate (TimeValue ms) => Normal (formatDay ms)
  | other => formatOther other
  end.

(** A value as the child of a cell: a string is its text, and
    [undefined] shows nothing. *)
Definition child (value : FieldValue) : completion (option string) :=
  match value with
  | FCell cell => Normal cell
  | other => reactChild other
  end.

(** The content of one cell (lines 437-439). *)
Definition tableCell (row : CampaignRecord) (col : string)
  : completion (option string) :=
  if stringIncludes "Date" col then
    text ← format (getField row col); Normal (Some text)
  else
    match getField row col with
    | FNumber n =>
        if negb (stringIncludes "Rate" col) then Normal (Some (toLocaleString n))
        else child (FNumber n)
    | other => child other
    end.

(** One row of the table (lines 434-442): its key and its cells, one for
    each required column. *)
Definition tableRow (row : CampaignRecord)
  : completion (IdValue * list (option string)) :=
  texts ← map_indexed (fun _ col => tableCell row col) 0 REQUIRED_COLUMNS;
  Normal (id row, texts).

(** The body of the table (lines 433-443).  The rows are built in order
    while [Dashboard] renders; the first cell that throws ends the
    rendering. *)
Definition tableBody (filteredData : list CampaignRecord)
  : completion (list (IdValue * list (option string))) :=
  map_indexed (fun _ row => tableRow row) 0 (tableRows filteredData).

End Table.

(** A record both of whose dates are valid, and the time value of a
    valid date. *)
Definition hasValidDates (record : CampaignRecord) : bool :=
  match Start_Date record, End_Date record with
  | TimeValue _, TimeValue _ => true
  | _, _ => false
  end.

Definition timeValue (d : Date) : Z :=
  match d with
  | TimeValue ms => ms
  | InvalidDate => 0
  end.

(** The row that the table is expected to show for a record with valid
    dates: the seven Numbers in the notation of the locale, the two
    days, and the text of the cell 'Ad Group'. *)
Definition shownRow (formatDay : Z -> string) (toLocaleString : number -> string)
    (record : CampaignRecord) : IdValue * list (option string) :=
  (id record,
   [Some (toLocaleString (Clicks record));
    Some (toLocaleString (Cost record));
    Some (toLocaleString (Avg_CPC record));
    Some (toLocaleString (Installs record));
    Some (toLocaleString (Trials record));
    Some (toLocaleString (Subscriptions record));
    Some (toLocaleString (Subscription_Value record));
    Some (formatDay (timeValue (Start_Date record)));
    Some (formatDay (timeValue (End_Date record)));
    Ad_Group record]).

(* ===================================================================== *)
(** * Aggregation *)
(* ===================================================================== *)

Section Aggregation.

Implicit Types (R : list CampaignRecord) (acc : Totals.t).

(** Every field of the accumulator is a running sum of its own
    column, whatever the accumulator starts from. *)
Lemma fold_accumulate_Clicks R acc :
  Totals.Clicks (fold_left accumulate R acc)
  = fold_left num_add (map Clicks R) (Totals.Clicks acc).
Proof. revert acc; induction R as [|r R IH]; intros acc; [done|apply IH]. Qed.

Lemma fold_accumulate_Cost R acc :
  Totals.Cost (fold_left accumulate R acc)
  = fold_left num_add (map Cost R) (Totals.Cost acc).
Proof. revert acc; induction R as [|r R IH]; intros acc; [done|apply IH]. Qed.

Lemma fold_accumulate_Installs R acc :
  Totals.Installs (fold_left accumulate R acc)
  = fold_left num_add (map Installs R) (Totals.Installs acc).
Proof. revert acc; induction R as [|r R IH]; intros acc; [done|apply IH]. Qed.

Lemma fold_accumulate_Trials R acc :
  Totals.Trials (fold_left accumulate R acc)
  = fold_left num_add (map Trials R) (Totals.Trials acc).
Proof. revert acc; induction R as [|r R IH]; intros acc; [done|apply IH]. Qed.

Lemma fold_accumulate_Subscriptions R acc :
  Totals.Subscriptions (fold_left accumulate R acc)
  = fold_left num_add (map Subscriptions R) (Totals.Subscriptions acc).
Proof. revert acc; induction R as [|r R IH]; intros acc; [done|apply IH]. Qed.

Lemma fold_accumulate_revenue R acc :
  Totals.Subscription_Value (fold_left accumulate R acc)
  = fold_left num_add (map revenueOf R) (Totals.Subscription_Value acc).
Proof. revert acc; induction R as [|r R IH]; intros acc; [done|apply IH]. Qed.

End Aggregation.

(** C1.  For every record sequence [R] the totals of [summary R] are the
    sums of the columns of [R] (clicks, cost, installs, trials,
    subscriptions), and the total under the key 'Subscription Value',
    the revenue, is the sum of [subscriptions * subscriptionValue] over
    the records; it is not the sum of the subscriptionValue column: on
    the scenario of the specification the revenue is 100 and that column
    sums to 20. *)
Theorem summary_totals_are_column_sums :
  (forall R : list CampaignRecord,
      Summary.Clicks (summary R) = Sigma (map Clicks R)
      /\ Summary.Cost (summary R) = Sigma (map Cost R)
      /\ Summary.Installs (summary R) = Sigma (map Installs R)
      /\ Summary.Trials (summary R) = Sigma (map Trials R)
      /\ Summary.Subscriptions (summary R) = Sigma (map Subscriptions R)
      /\ Summary.Subscription_Value (summary R) = Sigma (map revenueOf R))
  /\ (let R := loaded (load [scenarioRow]) in
      Summary.Subscription_Value (summary R) = num_of_Z 100
      /\ Sigma (map Subscription_Value R) = num_of_Z 20
      /\ Summary.Subscription_Value (summary R)
         <> Sigma (map Subscription_Value R)).
Proof.
  split.
  - intros R. unfold summary, totals, Sigma; cbn [Summary.Clicks Summary.Cost
      Summary.Installs Summary.Trials Summary.Subscriptions
      Summary.Subscription_Value].
    rewrite fold_accumulate_Clicks, fold_accumulate_Cost,
      fold_accumulate_Installs, fold_accumulate_Trials,
      fold_accumulate_Subscriptions, fold_accumulate_revenue.
    repeat split.
  - vm_compute. repeat split. discriminate.
Qed.

(** The scenario of the specification: a cost per install of 2.5, an
    install rate of 0.2, half of the installs in trial, 10 dollars per
    customer, a revenue of 100 and a return of 1. *)
Example scenario_summary :
  let s := summary (loaded (load [scenarioRow])) in
  Summary.cpi s = parseFloatStr "2.5"
  /\ Summary.installRate s = parseFloatStr "0.2"
  /\ Summary.installToTrialRate s = parseFloatStr "0.5"
  /\ Summary.cac s = num_of_Z 10
  /\ Summary.Subscription_Value s = num_of_Z 100
  /\ Summary.roi s = num_of_Z 1.
Proof. vm_compute. repeat split. Qed.

(** A denominator that is falsy gives [0], whatever the numerator. *)
Lemma safeDivide_falsy n d : ToBoolean d = false -> safeDivide n d = pos0.
Proof. unfold safeDivide. by intros ->. Qed.

Lemma safeDivide_truthy n d :
  ToBoolean d = true -> safeDivide n d = num_div n d.
Proof. unfold safeDivide. by intros ->. Qed.

Lemma isZero_falsy d : isZero d = true -> ToBoolean d = false.
Proof. by destruct d. Qed.

(** C3.  The summary of the empty sequence has every total and every
    ratio equal to [0]; and for any [R], a ratio whose denominator total
    is zero is exactly [0]. *)
Theorem summary_zero_denominators :
  summary [] = allZeroSummary
  /\ forall R : list CampaignRecord,
      let s := summary R in
      (isZero (Summary.Installs s) = true ->
         Summary.cpi s = pos0 /\ Summary.installToTrialRate s = pos0
         /\ Summary.installToPaidRate s = pos0)
      /\ (isZero (Summary.Clicks s) = true ->
         Summary.installRate s = pos0 /\ Summary.overallConversion s = pos0)
      /\ (isZero (Summary.Trials s) = true -> Summary.trialCost s = pos0)
      /\ (isZero (Summary.Subscriptions s) = true -> Summary.cac s = pos0)
      /\ (isZero (Summary.Cost s) = true ->
         Summary.valueCostRatio s = pos0 /\ Summary.roi s = pos0).
Proof.
  split; [reflexivity|].
  intros R s. subst s. unfold summary.
  cbn [Summary.Clicks Summary.Cost Summary.Installs Summary.Trials
       Summary.Subscriptions Summary.cpi Summary.installRate
       Summary.installToTrialRate Summary.trialCost Summary.installToPaidRate
       Summary.cac Summary.valueCostRatio Summary.overallConversion Summary.roi].
  repeat split; intros; apply safeDivide_falsy, isZero_falsy; assumption.
Qed.

(** On a campaign with a cost and no click, install, trial or
    subscription, the ratios over those totals are [0]. *)
Lemma summary_zero_denominators_witness :
  let s := summary (loaded (load [idleRow])) in
  isZero (Summary.Installs s) = true
  /\ Summary.cpi s = pos0 /\ Summary.installToTrialRate s = pos0
  /\ Summary.installToPaidRate s = pos0.
Proof.
  split; [reflexivity|].
  apply (proj1 (proj2 summary_zero_denominators (loaded (load [idleRow])))).
  reflexivity.
Defined.

(* ===================================================================== *)
(** * Rounding never invents a NaN *)
(* ===================================================================== *)

Section Rounding.

Lemma shr_1_nonneg mrs : 0 <= shr_m mrs -> 0 <= shr_m (shr_1 mrs).
Proof.
  destruct mrs as [m r s]; cbn [shr_m].
  destruct m as [|p|p]; [done| |lia].
  intros _. destruct p; cbn; lia.
Qed.

Lemma iter_pos_shr_1_nonneg p : forall mrs,
  0 <= shr_m mrs -> 0 <= shr_m (SpecFloat.iter_pos shr_1 p mrs).
Proof.
  induction p as [p IH|p IH|]; intros mrs H; cbn [SpecFloat.iter_pos].
  - apply IH, IH, shr_1_nonneg, H.
  - apply IH, IH, H.
  - apply shr_1_nonneg, H.
Qed.

Lemma shr_fexp_nonneg m e l :
  0 <= m -> 0 <= shr_m (fst (shr_fexp prec emax m e l)).
Proof.
  intros H. unfold shr_fexp, shr.
  assert (0 <= shr_m (shr_record_of_loc m l)) as H'.
  { destruct l as [|[]]; exact H. }
  destruct (fexp prec emax (Zdigits2 m + e) - e); cbn [fst]; try exact H'.
  by apply iter_pos_shr_1_nonneg.
Qed.

Lemma round_nearest_even_nonneg m l : 0 <= m -> 0 <= round_nearest_even m l.
Proof.
  intros H. destruct l as [|[]]; cbn; try lia.
  destruct (Z.even m); lia.
Qed.

Lemma binary_round_aux_not_NaN sx mx ex lx :
  0 <= mx -> isNaN (binary_round_aux prec emax sx mx ex lx) = false.
Proof.
  intros H. unfold binary_round_aux.
  pose proof (shr_fexp_nonneg mx ex lx H) as H1.
  destruct (shr_fexp prec emax mx ex lx) as [mrs' e']; cbn [fst] in H1.
  pose proof (shr_fexp_nonneg _ e' loc_Exact
    (round_nearest_even_nonneg _ (loc_of_shr_record mrs') H1)) as H2.
  destruct (shr_fexp prec emax _ e' loc_Exact) as [mrs'' e'']; cbn [fst] in H2.
  destruct (shr_m mrs'') as [|m|m]; [done| |lia].
  by destruct (e'' <=? emax - prec).
Qed.

Lemma binary_normalize_not_NaN m e szero :
  isNaN (binary_normalize prec emax m e szero) = false.
Proof.
  destruct m as [|p|p]; [done|..]; cbn [binary_normalize]; unfold binary_round;
    destruct (shl_align _ _ _) as [mz ez]; by apply binary_round_aux_not_NaN.
Qed.

Lemma num_sub_not_NaN x y :
  isFinite x = true -> isFinite y = true -> isNaN (num_sub x y) = false.
Proof.
  destruct x as [sx|sx| |sx mx ex], y as [sy|sy| |sy my ey]; try done.
  - by destruct sx, sy.
  - intros _ _. apply binary_normalize_not_NaN.
Qed.

Lemma num_div_not_NaN n d :
  isNaN n = false -> isFinite d = true -> isZero d = false ->
  isNaN (num_div n d) = false.
Proof.
  destruct n as [sn|sn| |sn mn en], d as [sd|sd| |sd md ed]; try done.
  intros _ _ _. unfold num_div, SFdiv.
  destruct (SFdiv_core_binary _ _ _ _ _ _) as [[mz ez] lz] eqn:E.
  apply binary_round_aux_not_NaN.
  unfold SFdiv_core_binary in E.
  set (m' := match _ with Z0 => _ | Zpos _ => _ | Zneg _ => _ end) in E.
  assert (0 <= m') as Hm'.
  { subst m'. destruct (_ - _ - _); [lia| |lia]. by apply Z.shiftl_nonneg. }
  pose proof (Z.div_pos m' (Z.pos md) Hm' ltac:(lia)) as Hq.
  unfold Z.div in Hq. destruct (Z.div_eucl m' (Z.pos md)) as [q r].
  by injection E as <- _ _.
Qed.

End Rounding.

(** A quotient computed by [safeDivide] is NaN only if the numerator is
    NaN or the denominator is infinite. *)
Lemma safeDivide_not_NaN n d :
  isNaN n = false -> isFinite d = true -> isNaN (safeDivide n d) = false.
Proof.
  intros Hn Hd. unfold safeDivide. destruct (ToBoolean d) eqn:E; [|done].
  apply num_div_not_NaN; [done..|]. by destruct d.
Qed.

Lemma isFinite_not_NaN x : isFinite x = true -> isNaN x = false.
Proof. by destruct x. Qed.

(** The nine ratios of a summary, and its six totals. *)
Lemma summary_ratios (R : list CampaignRecord) :
  let s := summary R in
  Summary.cpi s = safeDivide (Summary.Cost s) (Summary.Installs s)
  /\ Summary.installRate s = safeDivide (Summary.Installs s) (Summary.Clicks s)
  /\ Summary.installToTrialRate s
     = safeDivide (Summary.Trials s) (Summary.Installs s)
  /\ Summary.trialCost s = safeDivide (Summary.Cost s) (Summary.Trials s)
  /\ Summary.installToPaidRate s
     = safeDivide (Summary.Subscriptions s) (Summary.Installs s)
  /\ Summary.cac s = safeDivide (Summary.Cost s) (Summary.Subscriptions s)
  /\ Summary.valueCostRatio s
     = safeDivide (Summary.Subscription_Value s) (Summary.Cost s)
  /\ Summary.overallConversion s
     = safeDivide (Summary.Subscriptions s) (Summary.Clicks s)
  /\ Summary.roi s
     = safeDivide (num_sub (Summary.Subscription_Value s) (Summary.Cost s))
         (Summary.Cost s).
Proof. repeat split. Qed.

(** C2, as amended.  [safeDivide n d] is [0] when [d] is a zero and
    when [d] is NaN, and it is [n / d] for every other [d]; each of the
    nine ratios of a summary is [safeDivide] of its two totals; and when
    the six totals are finite no ratio is NaN.  (A ratio can still be an
    infinity, and it can be NaN when a total is not finite.) *)
Theorem safeDivide_guards_only_the_denominator :
  (forall n d, isZero d = true -> safeDivide n d = pos0)
  /\ (forall n, safeDivide n NaN = pos0)
  /\ (forall n d, isZero d = false -> isNaN d = false ->
        safeDivide n d = num_div n d)
  /\ (forall R : list CampaignRecord,
        let s := summary R in
        Summary.cpi s = safeDivide (Summary.Cost s) (Summary.Installs s)
        /\ Summary.installRate s
           = safeDivide (Summary.Installs s) (Summary.Clicks s)
        /\ Summary.installToTrialRate s
           = safeDivide (Summary.Trials s) (Summary.Installs s)
        /\ Summary.trialCost s = safeDivide (Summary.Cost s) (Summary.Trials s)
        /\ Summary.installToPaidRate s
           = safeDivide (Summary.Subscriptions s) (Summary.Installs s)
        /\ Summary.cac s = safeDivide (Summary.Cost s) (Summary.Subscriptions s)
        /\ Summary.valueCostRatio s
           = safeDivide (Summary.Subscription_Value s) (Summary.Cost s)
        /\ Summary.overallConversion s
           = safeDivide (Summary.Subscriptions s) (Summary.Clicks s)
        /\ Summary.roi s
           = safeDivide
               (num_sub (Summary.Subscription_Value s) (Summary.Cost s))
               (Summary.Cost s))
  /\ (forall R : list CampaignRecord,
        let s := summary R in
        isFinite (Summary.Clicks s) = true ->
        isFinite (Summary.Cost s) = true ->
        isFinite (Summary.Installs s) = true ->
        isFinite (Summary.Trials s) = true ->
        isFinite (Summary.Subscriptions s) = true ->
        isFinite (Summary.Subscription_Value s) = true ->
        isNaN (Summary.cpi s) = false
        /\ isNaN (Summary.installRate s) = false
        /\ isNaN (Summary.installToTrialRate s) = false
        /\ isNaN (Summary.trialCost s) = false
        /\ isNaN (Summary.installToPaidRate s) = false
        /\ isNaN (Summary.cac s) = false
        /\ isNaN (Summary.valueCostRatio s) = false
        /\ isNaN (Summary.overallConversion s) = false
        /\ isNaN (Summary.roi s) = false).
Proof.
  split; [|split; [|split; [|split]]].
  - intros n d H. by apply safeDivide_falsy, isZero_falsy.
  - reflexivity.
  - intros n d Hz Hn. apply safeDivide_truthy. by destruct d.
  - exact summary_ratios.
  - intros R s Hcl Hco Hin Htr Hsu Hsv.
    subst s.
    destruct (summary_ratios R) as (-> & -> & -> & -> & -> & -> & -> & -> & ->).
    repeat split; apply safeDivide_not_NaN;
      auto using isFinite_not_NaN, num_sub_not_NaN.
Qed.

(** Five dollars over no install is [0]; one over four is a quarter. *)
Lemma safeDivide_guards_only_the_denominator_witness :
  safeDivide (num_of_Z 5) pos0 = pos0
  /\ safeDivide (num_of_Z 1) (num_of_Z 4) = num_div (num_of_Z 1) (num_of_Z 4)
  /\ isNaN (Summary.roi (summary (loaded (load [scenarioRow])))) = false.
Proof.
  destruct safeDivide_guards_only_the_denominator as (H0 & _ & Hd & _ & Hfin).
  split; [|split].
  - apply H0. reflexivity.
  - apply Hd; reflexivity.
  - apply (Hfin (loaded (load [scenarioRow]))); reflexivity.
Defined.

(** C2 fails as stated.  A cost cell of [1e400] loads as [Infinity];
    the cost per install of that one record is then [Infinity] and its
    return on investment is NaN.  And NaN is a denominator different
    from [0] on which [safeDivide n d] is not [n / d]. *)
Lemma safeDivide_ratio_not_finite :
  exists records,
    load [overflowRow] = DataLoaded records
    /\ Summary.cpi (summary records) = Infinity
    /\ isFinite (Summary.cpi (summary records)) = false
    /\ Summary.roi (summary records) = NaN
    /\ isZero NaN = false
    /\ safeDivide (num_of_Z 1) NaN <> num_div (num_of_Z 1) NaN.
Proof.
  eexists. split; [vm_compute; reflexivity|].
  vm_compute. repeat split. discriminate.
Qed.

(* ===================================================================== *)
(** * Filtering *)
(* ===================================================================== *)

Lemma inDateRange_spec filters r :
  inDateRange filters r = true <-> dateInclusion filters r.
Proof.
  unfold inDateRange, dateInclusion.
  destruct (from (dateRange filters)) as [lower|]; [|by split; [left|]].
  destruct (to (dateRange filters)) as [upper|].
  - rewrite andb_true_iff. split.
    + intros [Hge Hle]. right. exists lower. repeat split; try done.
      right. by exists upper.
    + intros [|(l & [= <-] & ? & [|(u & [= <-] & ?)])]; done.
  - rewrite andb_true_r. split.
    + intros Hge. right. exists lower. repeat split; try done. by left.
    + intros [|(l & [= <-] & ? & _)]; done.
Qed.

Lemma inAdGroup_spec filters r :
  inAdGroup filters r = true <-> adGroupInclusion filters r.
Proof.
  unfold inAdGroup, adGroupInclusion.
  rewrite orb_true_iff, String.eqb_eq.
  destruct (Ad_Group r) as [group|].
  - rewrite String.eqb_eq. split; (intros [|]; [by left|right; congruence]).
  - split; (intros [|]; [by left|done]).
Qed.

Lemma filter_callback_spec filters r :
  inDateRange filters r && inAdGroup filters r = true <-> passes filters r.
Proof.
  unfold passes. by rewrite andb_true_iff, inDateRange_spec, inAdGroup_spec.
Qed.

Lemma filteredData_filter data filters :
  filteredData data filters = filter (passes filters) data.
Proof.
  unfold filteredData.
  induction data as [|r data IH]; [done|].
  cbn [List.filter]. rewrite filter_cons, IH.
  destruct (inDateRange filters r && inAdGroup filters r) eqn:E.
  - apply filter_callback_spec in E. by rewrite decide_True.
  - rewrite decide_False; [done|].
    intros H%filter_callback_spec. congruence.
Qed.

(** C4.  [filteredData] keeps, in their order, exactly the records that
    pass both the date rule and the ad-group rule; the end date of a
    record plays no part; and with no filter set the data come back
    unchanged. *)
Theorem filteredData_is_the_passing_subsequence :
  forall (data : list CampaignRecord) (filters : Filters),
    filteredData data filters = filter (passes filters) data
    /\ sublist (filteredData data filters) data
    /\ (forall g : Date -> Date,
          filteredData (map (withEndDate g) data) filters
          = map (withEndDate g) (filteredData data filters))
    /\ filteredData data noFilters = data.
Proof.
  intros data filters. split; [|split; [|split]].
  - apply filteredData_filter.
  - rewrite filteredData_filter. apply sublist_filter.
  - intros g. unfold filteredData.
    induction data as [|r data IH]; [done|].
    cbn [map List.filter]. rewrite IH.
    change (inDateRange filters (withEndDate g r)) with (inDateRange filters r).
    change (inAdGroup filters (withEndDate g r)) with (inAdGroup filters r).
    by destruct (inDateRange filters r && inAdGroup filters r).
  - unfold filteredData. induction data as [|r data IH]; [done|].
    cbn [List.filter].
    change (inDateRange noFilters r && inAdGroup noFilters r) with true.
    cbv iota. f_equal. exact IH.
Qed.

(* ===================================================================== *)
(** * Loading *)
(* ===================================================================== *)

Section LoadingFacts.

Variable Date_parse : string -> Date.

(** The body of the [try] block is a sequence of calls that complete
    normally, so the handler is not entered. *)
Lemma processRow_Normal index row :
  exists record,
    processRow Date_parse index row = Normal record
    /\ cells record = row
    /\ Start_Date record = newDate Date_parse (row !! "Start Date")
    /\ End_Date record = newDate Date_parse (row !! "End Date").
Proof. eexists. split; [reflexivity|]. repeat split. Qed.

Lemma map_indexed_Normal {A B} (f : nat -> A -> completion B) :
  (forall index x, exists y, f index x = Normal y) ->
  forall l index, exists ys,
    map_indexed f index l = Normal ys /\ length ys = length l.
Proof.
  intros Hf. induction l as [|x l IH]; intros index; cbn [map_indexed].
  - by exists [].
  - destruct (Hf index x) as [y ->].
    destruct (IH (S index)) as (ys & -> & Hlen).
    exists (y :: ys). split; [done|]. cbn. by rewrite Hlen.
Qed.

Lemma processedData_Normal data :
  exists records,
    processedData Date_parse data = Normal records
    /\ length records = length data.
Proof.
  apply map_indexed_Normal. intros index row.
  destruct (processRow_Normal index row) as (record & -> & _). by exists record.
Qed.

Lemma includes_spec headers col : includes headers col = true <-> col ∈ headers.
Proof.
  unfold includes. rewrite existsb_exists, list_elem_of_In. split.
  - by intros (x & Hin & ->%String.eqb_eq).
  - intros Hin. exists col. split; [done|apply String.eqb_refl].
Qed.

Lemma elem_of_missingColumns headers col :
  col ∈ missingColumns headers <-> col ∈ REQUIRED_COLUMNS /\ col ∉ headers.
Proof.
  unfold missingColumns.
  rewrite list_elem_of_In, filter_In, <- list_elem_of_In, negb_true_iff.
  pose proof (includes_spec headers col) as Hspec.
  destruct (includes headers col); split; intros [H1 H2]; try done;
    split; try done.
  - by destruct H2; apply Hspec.
  - by intros ?%Hspec.
Qed.

Lemma List_filter_sublist {A} (f : A -> bool) (l : list A) :
  sublist (List.filter f l) l.
Proof.
  induction l as [|x l IH]; cbn [List.filter]; [constructor|].
  destruct (f x); by constructor.
Qed.

Lemma complete_missing data headers :
  missingColumns headers <> [] ->
  complete Date_parse data [] headers
  = AppError ("Missing required columns: " ++ join ", " (missingColumns headers)).
Proof.
  intros H. unfold complete.
  destruct (missingColumns headers) as [|col missing]; [done|reflexivity].
Qed.

Lemma complete_loaded data headers :
  missingColumns headers = [] ->
  exists records,
    complete Date_parse data [] headers = DataLoaded records
    /\ processedData Date_parse data = Normal records.
Proof.
  intros H. unfold complete. rewrite H. cbn [length Nat.ltb Nat.leb].
  destruct (processedData_Normal data) as (records & -> & _). by exists records.
Qed.

End LoadingFacts.

(** C6.  The columns reported missing are exactly the required columns
    that the header line does not contain, in the order of the required
    list.  Either none is missing, every required column is in the
    header line and the rows are normalized and delivered; or some are,
    and the load ends with the message listing them, without a record.
    A header line without 'Subscription Value' is rejected with that one
    name, wherever its other columns stand. *)
Theorem schema_validation_lists_missing_columns :
  forall (Date_parse : string -> Date) (data : list RawRow)
         (headers : list string),
    let missing := missingColumns headers in
    (forall col, col ∈ missing <-> col ∈ REQUIRED_COLUMNS /\ col ∉ headers)
    /\ sublist missing REQUIRED_COLUMNS
    /\ ((missing = []
         /\ Forall (fun col => col ∈ headers) REQUIRED_COLUMNS
         /\ exists records,
             complete Date_parse data [] headers = DataLoaded records
             /\ processedData Date_parse data = Normal records)
        \/ (missing <> []
            /\ complete Date_parse data [] headers
               = AppError ("Missing required columns: " ++ join ", " missing)))
    /\ complete Date_parse data [] headersWithoutValue
       = AppError "Missing required columns: Subscription Value".
Proof.
  intros Date_parse data headers missing. subst missing.
  split; [|split; [|split]].
  - apply elem_of_missingColumns.
  - apply List_filter_sublist.
  - destruct (missingColumns headers) as [|col missing] eqn:E.
    + left. split; [done|]. split; [|by apply complete_loaded].
      apply Forall_forall. intros col Hcol.
      destruct (decide (col ∈ headers)) as [|Hn]; [done|].
      assert (col ∈ missingColumns headers) as Hin
        by by apply elem_of_missingColumns.
      rewrite E in Hin. by apply elem_of_nil in Hin.
    + right. split; [done|]. rewrite <- E. apply complete_missing. by rewrite E.
  - reflexivity.
Qed.

(** C5.  A row whose 'Start Date' cell the date parser rejects is still
    normalized; its start date is the invalid date; and as soon as the
    lower bound of the date range is set, the date rule is false for
    the record and the record is in no filtered sequence. *)
Theorem unparsable_start_date_is_excluded :
  forall (Date_parse : string -> Date) (index : nat) (row : RawRow)
         (cell : string),
    row !! "Start Date" = Some cell ->
    Date_parse cell = InvalidDate ->
    exists record,
      processRow Date_parse index row = Normal record
      /\ Start_Date record = InvalidDate
      /\ forall filters lower,
          from (dateRange filters) = Some lower ->
          inDateRange filters record = false
          /\ forall data, record ∉ filteredData data filters.
Proof.
  intros Date_parse index row cell Hcell Hparse.
  destruct (processRow_Normal Date_parse index row) as (record & H & _ & Hs & _).
  exists record. split; [done|].
  rewrite Hcell in Hs. cbn [newDate] in Hs. rewrite Hparse in Hs.
  split; [done|]. intros filters lower Hfrom.
  assert (inDateRange filters record = false) as Hout.
  { unfold inDateRange. by rewrite Hfrom, Hs. }
  split; [done|]. intros data.
  unfold filteredData. rewrite list_elem_of_In, filter_In, Hout. by intros [_ ?].
Qed.

(** The row dated 'next week' is loaded with an invalid start date and
    does not pass a range that starts in 2024. *)
Lemma unparsable_start_date_is_excluded_witness :
  exists record,
    processRow isoDateOnlyParse 0 undatedRow = Normal record
    /\ Start_Date record = InvalidDate
    /\ inDateRange since2024 record = false.
Proof.
  destruct (unparsable_start_date_is_excluded isoDateOnlyParse 0 undatedRow
              "next week" eq_refl eq_refl) as (record & H & Hs & Hf).
  exists record. split; [exact H|]. split; [exact Hs|].
  exact (proj1 (Hf since2024 (TimeValue 1704067200000) eq_refl)).
Defined.

(* ===================================================================== *)
(** * Rounding a non-zero integer never gives zero *)
(* ===================================================================== *)

Section RoundingPositive.

Lemma digits2_pos_size p : digits2_pos p = Pos.size p.
Proof. induction p as [p IH|p IH|]; cbn; by rewrite ?IH. Qed.

Lemma digits2_pos_lower p : 2 ^ (Z.pos (digits2_pos p) - 1) <= Z.pos p.
Proof.
  rewrite digits2_pos_size.
  pose proof (Pos.size_le p) as H.
  apply Pos2Z.pos_le_pos in H. rewrite Pos2Z.inj_pow in H.
  replace (Z.pos (Pos.size p)) with (Z.succ (Z.pos (Pos.size p) - 1)) in H by lia.
  rewrite Z.pow_succ_r in H by lia. lia.
Qed.

Lemma shr_1_div2 mrs : 0 <= shr_m mrs -> shr_m (shr_1 mrs) = shr_m mrs / 2.
Proof.
  destruct mrs as [m r s]; cbn [shr_m]. rewrite <- Z.div2_div.
  destruct m as [|p|p]; [done| |lia]. intros _. by destruct p.
Qed.

Lemma iter_pos_shr_1_div p : forall mrs,
  0 <= shr_m mrs ->
  shr_m (SpecFloat.iter_pos shr_1 p mrs) = shr_m mrs / 2 ^ Z.pos p.
Proof.
  induction p as [p IH|p IH|]; intros mrs H; cbn [SpecFloat.iter_pos].
  - rewrite IH, IH, shr_1_div2 by auto using iter_pos_shr_1_nonneg, shr_1_nonneg.
    rewrite !Z.div_div by lia. f_equal.
    rewrite Pos2Z.inj_xI.
    replace (2 * Z.pos p + 1) with (1 + Z.pos p + Z.pos p) by lia.
    rewrite !Z.pow_add_r by lia. change (2 ^ 1) with 2. lia.
  - rewrite IH, IH by auto using iter_pos_shr_1_nonneg.
    rewrite !Z.div_div by lia. f_equal.
    rewrite <- Z.pow_add_r by lia. f_equal. lia.
  - by apply shr_1_div2.
Qed.

(** Above the smallest exponent, the shift that brings a positive
    mantissa to the format leaves it positive and does not lower the
    exponent. *)
Lemma shr_fexp_pos m e l :
  0 < m -> SpecFloat.emin prec emax <= e ->
  0 < shr_m (fst (shr_fexp prec emax m e l))
  /\ e <= snd (shr_fexp prec emax m e l).
Proof.
  intros Hm He. unfold shr_fexp, shr.
  assert (shr_m (shr_record_of_loc m l) = m) as Hrec by by destruct l as [|[]].
  destruct m as [|p|p]; try lia. cbn [Zdigits2].
  pose proof (digits2_pos_lower p) as Hlow.
  set (d := Z.pos (digits2_pos p)) in *.
  assert (0 < d) as Hd by (subst d; lia).
  assert (fexp prec emax (d + e) - e < d) as Hn.
  { unfold fexp, prec, emax, SpecFloat.emin in *. lia. }
  destruct (fexp prec emax (d + e) - e) as [|q|q] eqn:En; cbn [fst snd];
    rewrite ?Hrec; try lia.
  rewrite iter_pos_shr_1_div by (rewrite Hrec; lia). rewrite Hrec.
  split; [|lia].
  apply Z.div_str_pos. split; [lia|].
  etrans; [|exact Hlow]. apply Z.pow_le_mono_r; lia.
Qed.

Lemma round_nearest_even_pos m l : 0 < m -> 0 < round_nearest_even m l.
Proof.
  intros H. destruct l as [|[]]; cbn; try lia.
  destruct (Z.even m); lia.
Qed.

Lemma binary_round_aux_truthy sx mx ex lx :
  0 < mx -> SpecFloat.emin prec emax <= ex ->
  ToBoolean (binary_round_aux prec emax sx mx ex lx) = true.
Proof.
  intros Hm He. unfold binary_round_aux.
  destruct (shr_fexp_pos mx ex lx Hm He) as [H1 He'].
  destruct (shr_fexp prec emax mx ex lx) as [mrs' e']; cbn [fst snd] in H1, He'.
  destruct (shr_fexp_pos _ e' loc_Exact
    (round_nearest_even_pos _ (loc_of_shr_record mrs') H1) ltac:(lia)) as [H2 _].
  destruct (shr_fexp prec emax _ e' loc_Exact) as [mrs'' e'']; cbn [fst] in H2.
  destruct (shr_m mrs'') as [|m|m]; [lia| |lia].
  by destruct (e'' <=? emax - prec).
Qed.

Lemma binary_round_truthy sx mx : ToBoolean (binary_round prec emax sx mx 0) = true.
Proof.
  unfold binary_round.
  destruct (shl_align mx 0 _) as [mz ez] eqn:E.
  apply binary_round_aux_truthy; [lia|].
  unfold shl_align in E.
  destruct (fexp prec emax (Z.pos (digits2_pos mx) + 0) - 0) eqn:E';
    injection E as <- <-; unfold fexp, prec, emax, SpecFloat.emin in *; lia.
Qed.

Lemma num_of_Z_truthy z : z <> 0 -> ToBoolean (num_of_Z z) = true.
Proof. destruct z; [done|..]; intros _; apply binary_round_truthy. Qed.

(** Rounding commutes with the sign. *)
Lemma num_neg_num_of_Z_pos p : num_neg (num_of_Z (Z.pos p)) = num_of_Z (Z.neg p).
Proof.
  unfold num_of_Z, binary_normalize, binary_round, binary_round_aux.
  destruct (shl_align p 0 _) as [mz ez].
  destruct (shr_fexp prec emax (Z.pos mz) ez loc_Exact) as [mrs' e'].
  destruct (shr_fexp prec emax _ e' loc_Exact) as [mrs'' e''].
  destruct (shr_m mrs''); [done| |done]. by destruct (e'' <=? emax - prec).
Qed.

Lemma num_of_Z_neg_negative p : isNegative (num_of_Z (Z.neg p)) = true.
Proof.
  pose proof (binary_round_truthy true p) as H.
  unfold num_of_Z, binary_normalize.
  unfold binary_round, binary_round_aux in *.
  destruct (shl_align p 0 _) as [mz ez].
  destruct (shr_fexp prec emax (Z.pos mz) ez loc_Exact) as [mrs' e'].
  destruct (shr_fexp prec emax _ e' loc_Exact) as [mrs'' e''].
  destruct (shr_m mrs''); [done| |done]. by destruct (e'' <=? emax - prec).
Qed.

End RoundingPositive.

(* ===================================================================== *)
(** * Reading decimal numerals *)
(* ===================================================================== *)

Section Numerals.

Lemma isDigit_code c : isDigit c = true <-> 48 <= code c <= 57.
Proof. unfold isDigit. rewrite andb_true_iff, !Z.leb_le. done. Qed.

Lemma eqb_code c1 c2 : code c1 <> code c2 -> Ascii.eqb c1 c2 = false.
Proof. intros H. apply Ascii.eqb_neq. intros E. apply H. rewrite E. reflexivity. Qed.

(** A digit is no white space, no sign, no dot, no exponent indicator
    and not the first letter of [Infinity]. *)
Lemma isDigit_plain c :
  isDigit c = true ->
  isStrWhiteSpaceChar c = false
  /\ Ascii.eqb c "-" = false /\ Ascii.eqb c "+" = false
  /\ Ascii.eqb c "." = false /\ Ascii.eqb c "e" = false
  /\ Ascii.eqb c "E" = false /\ c <> "I"%char.
Proof.
  intros H%isDigit_code.
  assert (forall c', code c' < 48 \/ 57 < code c' -> code c <> code c') as Hne
    by (intros c' ?; lia).
  split; [|repeat split].
  - unfold isStrWhiteSpaceChar. cbv zeta.
    destruct (Z.leb_spec 9 (code c)), (Z.leb_spec (code c) 13),
      (Z.eqb_spec (code c) 32), (Z.eqb_spec (code c) 160);
      try reflexivity; lia.
  - apply eqb_code, Hne. vm_compute. by left.
  - apply eqb_code, Hne. vm_compute. by left.
  - apply eqb_code, Hne. vm_compute. by left.
  - apply eqb_code, Hne. vm_compute. by right.
  - apply eqb_code, Hne. vm_compute. by right.
  - intros E. apply (Hne "I"%char); [vm_compute; by right|]. by rewrite E.
Qed.

Lemma pretty_N_char_digit d :
  (d < 10)%N ->
  isDigit (pretty_N_char d) = true /\ digitValue (pretty_N_char d) = Z.of_N d.
Proof.
  intros H.
  assert (d = 0 \/ d = 1 \/ d = 2 \/ d = 3 \/ d = 4 \/ d = 5 \/ d = 6 \/ d = 7
          \/ d = 8 \/ d = 9)%N as Hd by lia.
  by repeat (destruct Hd as [->|Hd]; [done|]); subst.
Qed.

Lemma readDigits_stop acc n s :
  startsWithDigit s = false -> readDigits acc n s = (acc, n, s).
Proof. destruct s as [|c s]; [done|]. cbn. by intros ->. Qed.

(** Reading what [pretty] printed: the digits of [x] are consumed and
    their value is added to what was read before. *)
Lemma readDigits_pretty_N_go x : forall acc n s,
  exists k,
    readDigits acc n (pretty_N_go x s)
    = readDigits (acc * 10 ^ Z.of_nat k + Z.of_N x) (n + k) s
    /\ ((0 < x)%N -> (0 < k)%nat).
Proof.
  induction (N.lt_wf_0 x) as [x _ IH]; intros acc n s.
  destruct (decide (x = 0%N)) as [->|Hx].
  - exists 0%nat. rewrite pretty_N_go_0. split; [|lia].
    f_equal; [change (10 ^ Z.of_nat 0) with 1|]; lia.
  - rewrite pretty_N_go_step by lia.
    destruct (IH (x `div` 10)%N ltac:(apply N.div_lt; lia) acc n
                (String (pretty_N_char (x `mod` 10)) s)) as (k & -> & _).
    exists (S k). split; [|lia].
    destruct (pretty_N_char_digit (x `mod` 10)) as [Hd Hv];
      [by apply N.mod_lt|].
    cbn [readDigits]. rewrite Hd, Hv.
    f_equal; [|lia].
    rewrite Nat2Z.inj_succ, Z.pow_succ_r by lia.
    rewrite N2Z.inj_div, N2Z.inj_mod.
    pose proof (Z.div_mod (Z.of_N x) 10 ltac:(lia)).
    change (Z.of_N 10) with 10. lia.
Qed.

Lemma pretty_N_go_app x : forall s rest,
  pretty_N_go x s ++ rest = pretty_N_go x (s ++ rest).
Proof.
  induction (N.lt_wf_0 x) as [x _ IH]; intros s rest.
  destruct (decide (x = 0%N)) as [->|Hx]; [by rewrite !pretty_N_go_0|].
  rewrite (pretty_N_go_step x s), (pretty_N_go_step x (s ++ rest)) by lia.
  rewrite IH by (apply N.div_lt; lia). reflexivity.
Qed.

Lemma pretty_N_go_head x : forall s,
  (0 < x)%N -> startsWithDigit (pretty_N_go x s) = true.
Proof.
  induction (N.lt_wf_0 x) as [x _ IH]; intros s Hx.
  rewrite pretty_N_go_step by lia.
  destruct (decide (x `div` 10 = 0)%N) as [->|Hx'].
  - rewrite pretty_N_go_0. cbn.
    apply pretty_N_char_digit. by apply N.mod_lt.
  - apply IH; [apply N.div_lt; lia|].
    destruct (x `div` 10)%N; [done|lia].
Qed.

(** The numeral of a positive integer, followed by something that is
    not a digit. *)
Lemma pretty_pos_read p rest :
  startsWithDigit rest = false ->
  startsWithDigit (pretty p ++ rest) = true
  /\ exists k, readDigits 0 0 (pretty p ++ rest) = (Z.pos p, S k, rest).
Proof.
  intros Hrest. unfold pretty, pretty_positive, pretty, pretty_N.
  rewrite decide_False by done. rewrite pretty_N_go_app.
  change ("" ++ rest) with rest.
  split; [by apply pretty_N_go_head|].
  destruct (readDigits_pretty_N_go (N.pos p) 0 0 rest) as (k & -> & Hk).
  destruct k as [|k]; [lia|]. exists k.
  rewrite readDigits_stop by done. f_equal.
Qed.

Lemma parseIntStr_digits s :
  startsWithDigit s = true ->
  parseIntStr s
  = let '(mathInt, ndigits, _) := readDigits 0 0 s in
    match ndigits with O => NaN | _ => num_of_Z mathInt end.
Proof.
  destruct s as [|c s]; [done|]. cbn [startsWithDigit]. intros Hc.
  destruct (isDigit_plain c Hc) as (Hw & Hm & Hp & _).
  unfold parseIntStr. cbn [trimStart]. rewrite Hw. cbn [readSign].
  rewrite Hm, Hp. by destruct (readDigits 0 0 (String c s)) as [[v k] r].
Qed.

(** [parseInt] on a decimal numeral, whatever follows it. *)
Lemma parseIntStr_pretty (z : Z) rest :
  startsWithDigit rest = false -> parseIntStr (pretty z ++ rest) = num_of_Z z.
Proof.
  intros Hrest. destruct z as [|p|p].
  - change (pretty 0 ++ rest) with (String "0" rest).
    rewrite parseIntStr_digits by done. cbn [readDigits].
    change (isDigit "0") with true. cbv iota.
    by rewrite readDigits_stop.
  - change (pretty (Z.pos p)) with (pretty p).
    destruct (pretty_pos_read p rest Hrest) as (Hd & k & Hr).
    by rewrite parseIntStr_digits, Hr.
  - change (pretty (Z.neg p) ++ rest) with (String "-" (pretty p ++ rest)).
    destruct (pretty_pos_read p rest Hrest) as (Hd & k & Hr).
    unfold parseIntStr. cbn [trimStart].
    change (isStrWhiteSpaceChar "-") with false. cbv iota. cbn [readSign].
    change (Ascii.eqb "-" "-") with true. cbv iota.
    rewrite Hr. cbn [applySign]. apply num_neg_num_of_Z_pos.
Qed.

Lemma readUnsignedDecimal_pretty p rest :
  continuesNumeral rest = false ->
  readUnsignedDecimal (pretty p ++ rest) = num_of_Z (Z.pos p).
Proof.
  unfold continuesNumeral. rewrite !orb_false_iff.
  intros [[[Hd Hdot] He] HE].
  destruct (pretty_pos_read p rest Hd) as (Hh & k & Hr).
  unfold readUnsignedDecimal.
  assert (String.prefix "Infinity" (pretty p ++ rest) = false) as ->.
  { destruct (pretty p ++ rest) as [|c s]; [done|].
    cbn [startsWithDigit] in Hh.
    destruct (isDigit_plain c Hh) as (_ & _ & _ & _ & _ & _ & HI).
    cbn [String.prefix].
    destruct (ascii_dec "I" c) as [E|]; [|reflexivity].
    by destruct HI. }
  rewrite Hr, Hdot.
  assert (readExponent rest = 0) as ->.
  { destruct rest as [|c r]; [done|].
    cbn [startsWith] in He, HE. cbn [readExponent]. by rewrite He, HE. }
  unfold num_of_decimal. change (0 <=? 0) with true. cbv iota.
  f_equal. change (10 ^ 0) with 1. lia.
Qed.

(** [parseFloat] on a decimal numeral without fraction or exponent. *)
Lemma parseFloatStr_pretty (z : Z) rest :
  continuesNumeral rest = false -> parseFloatStr (pretty z ++ rest) = num_of_Z z.
Proof.
  intros Hrest. destruct z as [|p|p].
  - unfold continuesNumeral in Hrest. rewrite !orb_false_iff in Hrest.
    destruct Hrest as [[[Hd Hdot] He] HE].
    change (pretty 0 ++ rest) with (String "0" rest).
    unfold parseFloatStr. cbn [trimStart].
    change (isStrWhiteSpaceChar "0") with false. cbv iota. cbn [readSign].
    change (Ascii.eqb "0" "-") with false. change (Ascii.eqb "0" "+") with false.
    cbv iota. cbn [applySign]. unfold readUnsignedDecimal.
    change (String.prefix "Infinity" (String "0" rest)) with false. cbv iota.
    cbn [readDigits]. change (isDigit "0") with true. cbv iota.
    rewrite readDigits_stop by done. rewrite Hdot.
    assert (readExponent rest = 0) as ->; [|done].
    destruct rest as [|c r]; [done|].
    cbn [startsWith] in He, HE. cbn [readExponent]. by rewrite He, HE.
  - change (pretty (Z.pos p)) with (pretty p).
    pose proof (readUnsignedDecimal_pretty p rest Hrest) as Hr.
    unfold continuesNumeral in Hrest. rewrite !orb_false_iff in Hrest.
    destruct (pretty_pos_read p rest (proj1 (proj1 (proj1 Hrest)))) as (Hd & _).
    unfold parseFloatStr.
    destruct (pretty p ++ rest) as [|c s]; [done|].
    destruct (isDigit_plain c Hd) as (Hw & Hm & Hp & _).
    cbn [trimStart]. rewrite Hw. cbn [readSign]. by rewrite Hm, Hp.
  - change (pretty (Z.neg p) ++ rest) with (String "-" (pretty p ++ rest)).
    unfold parseFloatStr. cbn [trimStart].
    change (isStrWhiteSpaceChar "-") with false. cbv iota. cbn [readSign].
    change (Ascii.eqb "-" "-") with true. cbv iota.
    rewrite readUnsignedDecimal_pretty by done.
    cbn [applySign]. apply num_neg_num_of_Z_pos.
Qed.

End Numerals.

(* ===================================================================== *)
(** * When a cell has no number in it *)
(* ===================================================================== *)

Section Unparsable.

Lemma digitValue_nonneg c : isDigit c = true -> 0 <= digitValue c.
Proof. intros H%isDigit_code. unfold digitValue. lia. Qed.

Lemma readDigits_mono s : forall acc n,
  (n <= snd (fst (readDigits acc n s)))%nat
  /\ (0 <= acc -> 0 <= fst (fst (readDigits acc n s))).
Proof.
  induction s as [|c s IH]; intros acc n; cbn [readDigits]; [done|].
  destruct (isDigit c) eqn:Hc; [|done].
  destruct (IH (10 * acc + digitValue c) (S n)) as [Hn Hv].
  pose proof (digitValue_nonneg c Hc). split; [lia|]. intros ?. apply Hv. lia.
Qed.

Lemma readDigits_some acc n s :
  startsWithDigit s = true -> (n < snd (fst (readDigits acc n s)))%nat.
Proof.
  destruct s as [|c s]; [done|]. cbn [startsWithDigit readDigits]. intros ->.
  pose proof (proj1 (readDigits_mono s (10 * acc + digitValue c) (S n))). lia.
Qed.

Lemma isNaN_applySign neg x : isNaN (applySign neg x) = isNaN x.
Proof. by destruct neg, x. Qed.

Lemma num_of_Z_not_NaN z : isNaN (num_of_Z z) = false.
Proof. apply binary_normalize_not_NaN. Qed.

Lemma num_of_ratio_not_NaN m d :
  0 <= m -> 0 < d -> isNaN (num_of_ratio m d) = false.
Proof.
  intros Hm Hd. unfold num_of_ratio. destruct m as [|m|m]; [done| |lia].
  destruct (SFdiv_core_binary _ _ _ _ _ _) as [[q e] l] eqn:E.
  apply binary_round_aux_not_NaN.
  unfold SFdiv_core_binary in E.
  set (m' := match _ with Z0 => _ | Zpos _ => _ | Zneg _ => _ end) in E.
  assert (0 <= m') as Hm'.
  { subst m'. destruct (_ - _ - _); [lia| |lia]. by apply Z.shiftl_nonneg. }
  pose proof (Z.div_pos m' d Hm' Hd) as Hq.
  unfold Z.div in Hq. destruct (Z.div_eucl m' d) as [q' r].
  by injection E as <- _ _.
Qed.

Lemma num_of_decimal_not_NaN m e10 : 0 <= m -> isNaN (num_of_decimal m e10) = false.
Proof.
  intros Hm. unfold num_of_decimal. destruct (0 <=? e10) eqn:E.
  - apply num_of_Z_not_NaN.
  - apply num_of_ratio_not_NaN; [done|]. apply Z.pow_pos_nonneg; lia.
Qed.

(** [parseInt] answers NaN exactly when no digit follows the white
    space and the sign. *)
Lemma parseIntStr_NaN s : isNaN (parseIntStr s) = negb (hasIntegerPrefix s).
Proof.
  unfold parseIntStr, hasIntegerPrefix, unsignedPart.
  destruct (readSign (trimStart s)) as [neg t]. cbn [snd].
  destruct (startsWithDigit t) eqn:Ht.
  - pose proof (readDigits_some 0 0 t Ht) as Hk.
    destruct (readDigits 0 0 t) as [[v k] r]. cbn [fst snd] in Hk.
    destruct k as [|k]; [lia|].
    by rewrite isNaN_applySign, num_of_Z_not_NaN.
  - by rewrite readDigits_stop.
Qed.

(** [parseFloat] answers NaN exactly when neither [Infinity], nor a
    digit, nor a dot and a digit follow the white space and the sign. *)
Lemma parseFloatStr_NaN s : isNaN (parseFloatStr s) = negb (hasDecimalPrefix s).
Proof.
  unfold parseFloatStr, hasDecimalPrefix, unsignedPart.
  destruct (readSign (trimStart s)) as [neg t]. cbn [snd]. cbv zeta.
  rewrite isNaN_applySign. unfold readUnsignedDecimal.
  destruct (String.prefix "Infinity" t); [done|]. cbn [orb].
  destruct (startsWithDigit t) eqn:Ht.
  - pose proof (readDigits_some 0 0 t Ht) as Hk.
    pose proof (proj2 (readDigits_mono t 0 0) ltac:(lia)) as Hv.
    destruct (readDigits 0 0 t) as [[ip n1] r1]. cbn [fst snd] in Hk, Hv.
    destruct n1 as [|n1]; [lia|]. cbn [orb negb].
    destruct (startsWith "." r1).
    + pose proof (proj2 (readDigits_mono (tail r1) ip 0) Hv) as Hm.
      destruct (readDigits ip 0 (tail r1)) as [[m n2] r3]. cbn [fst] in Hm.
      by apply num_of_decimal_not_NaN.
    + by apply num_of_decimal_not_NaN.
  - rewrite readDigits_stop by done. cbn [orb].
    destruct (startsWith "." t); [|done]. cbn [andb].
    destruct (startsWithDigit (tail t)) eqn:Ht'.
    + pose proof (readDigits_some 0 0 (tail t) Ht') as Hk.
      pose proof (proj2 (readDigits_mono (tail t) 0 0) ltac:(lia)) as Hm.
      destruct (readDigits 0 0 (tail t)) as [[m n2] r3]. cbn [fst snd] in Hk, Hm.
      destruct n2 as [|n2]; [lia|]. by apply num_of_decimal_not_NaN.
    + by rewrite readDigits_stop.
Qed.

End Unparsable.

(* ===================================================================== *)
(** * Reading numerals with a fraction *)
(* ===================================================================== *)

Section Fractions.

Lemma readDigits_digitsString ds :
  Forall (fun d => (d < 10)%N) ds ->
  forall acc n rest,
    startsWithDigit rest = false ->
    readDigits acc n (digitsString ds ++ rest)
    = (digitsValue acc ds, (n + length ds)%nat, rest).
Proof.
  induction 1 as [|d ds Hd _ IH]; intros acc n rest Hrest.
  - change (digitsString [] ++ rest) with rest.
    rewrite readDigits_stop by done. cbn. by rewrite Nat.add_0_r.
  - change (digitsString (d :: ds) ++ rest)
      with (String (pretty_N_char d) (digitsString ds ++ rest)).
    destruct (pretty_N_char_digit d Hd) as [Hdig Hval].
    cbn [readDigits]. rewrite Hdig, Hval, IH by done.
    cbn [digitsValue fold_left length]. f_equal. f_equal. lia.
Qed.

Lemma pretty_N_read (a : N) rest :
  startsWithDigit rest = false ->
  startsWithDigit (pretty a ++ rest) = true
  /\ exists k, readDigits 0 0 (pretty a ++ rest) = (Z.of_N a, S k, rest).
Proof.
  intros Hrest. destruct a as [|p].
  - change (pretty 0%N ++ rest) with (String "0" rest). split; [done|].
    exists 0%nat. cbn [readDigits]. change (isDigit "0") with true. cbv iota.
    by rewrite readDigits_stop.
  - by apply pretty_pos_read.
Qed.

Lemma readExponent_stop rest :
  startsWith "e" rest = false -> startsWith "E" rest = false ->
  readExponent rest = 0.
Proof.
  destruct rest as [|c r]; [done|]. cbn [startsWith readExponent].
  by intros -> ->.
Qed.

Lemma readSign_digit s :
  startsWithDigit s = true -> readSign (trimStart s) = (false, s).
Proof.
  destruct s as [|c s]; [done|]. cbn [startsWithDigit]. intros Hc.
  destruct (isDigit_plain c Hc) as (Hw & Hm & Hp & _).
  cbn [trimStart]. rewrite Hw. cbn [readSign]. by rewrite Hm, Hp.
Qed.

Lemma prefix_Infinity_digit s :
  startsWithDigit s = true -> String.prefix "Infinity" s = false.
Proof.
  destruct s as [|c s]; [done|]. cbn [startsWithDigit]. intros Hc.
  destruct (isDigit_plain c Hc) as (_ & _ & _ & _ & _ & _ & HI).
  cbn [String.prefix]. destruct (ascii_dec "I" c) as [E|]; [|reflexivity].
  by destruct HI.
Qed.

Lemma readUnsignedDecimal_fraction (a : N) ds rest :
  Forall (fun d => (d < 10)%N) ds ->
  startsWithDigit rest = false ->
  startsWith "e" rest = false -> startsWith "E" rest = false ->
  readUnsignedDecimal (pretty a ++ String "." (digitsString ds ++ rest))
  = num_of_decimal (digitsValue (Z.of_N a) ds) (- Z.of_nat (length ds)).
Proof.
  intros Hds Hrest He HE.
  destruct (pretty_N_read a (String "." (digitsString ds ++ rest)) eq_refl)
    as (Hd & k & Hr).
  unfold readUnsignedDecimal.
  rewrite prefix_Infinity_digit, Hr by done.
  cbn [startsWith tail]. change (Ascii.eqb "." ".") with true. cbv iota.
  rewrite readDigits_digitsString by done.
  rewrite readExponent_stop by done. cbn [Nat.add].
  destruct (length ds); reflexivity.
Qed.

(** [parseFloat] on a decimal numeral with a fraction. *)
Lemma parseFloatStr_decimalNumeral neg (a : N) ds :
  Forall (fun d => (d < 10)%N) ds ->
  parseFloatStr (decimalNumeral neg a ds) = decimalValue neg a ds.
Proof.
  intros Hds.
  pose proof (readUnsignedDecimal_fraction a ds "" Hds eq_refl eq_refl eq_refl)
    as Hr.
  assert (digitsString ds ++ "" = digitsString ds) as Happ.
  { generalize (digitsString ds). intros s.
    induction s as [|c s IH]; [done|].
    change (String c (s ++ "") = String c s). by rewrite IH. }
  rewrite Happ in Hr.
  unfold decimalNumeral, decimalValue, parseFloatStr.
  change ("." ++ digitsString ds) with (String "." (digitsString ds)).
  destruct neg.
  - change ("-" ++ pretty a ++ String "." (digitsString ds))
      with (String "-" (pretty a ++ String "." (digitsString ds))).
    cbn [trimStart]. change (isStrWhiteSpaceChar "-") with false. cbv iota.
    cbn [readSign]. change (Ascii.eqb "-" "-") with true. cbv iota.
    by rewrite Hr.
  - change ("" ++ pretty a ++ String "." (digitsString ds))
      with (pretty a ++ String "." (digitsString ds)).
    rewrite readSign_digit; [by rewrite Hr|].
    by apply pretty_N_read.
Qed.

End Fractions.

(* ===================================================================== *)
(** * Normalization of the numeric fields *)
(* ===================================================================== *)

Section Normalization.

Variable Date_parse : string -> Date.

Lemma processRow_fields index row :
  exists record,
    processRow Date_parse index row = Normal record
    /\ Forall (fun kf => kf.2 record = js_or (parseInt (row !! kf.1)) pos0)
         integerFields
    /\ Forall (fun kf => kf.2 record = js_or (parseFloat (row !! kf.1)) pos0)
         realFields.
Proof. eexists. split; [reflexivity|]. split; repeat constructor. Qed.

Lemma js_or_num_of_Z z : js_or (num_of_Z z) pos0 = num_of_Z z.
Proof.
  destruct (decide (z = 0)) as [->|Hz]; [done|].
  unfold js_or. by rewrite num_of_Z_truthy.
Qed.

Lemma js_or_NaN x : isNaN x = true -> js_or x pos0 = pos0.
Proof. by destruct x. Qed.

Lemma js_or_negative x : isNegative x = true -> js_or x pos0 = x.
Proof. by destruct x as [[]|[]| |[]]. Qed.

Lemma js_or_cases x :
  isNaN x = false -> js_or x pos0 = x \/ (isZero x = true /\ js_or x pos0 = pos0).
Proof. destruct x; try done; [by right|by left..]. Qed.

Lemma append_empty_r (s : string) : s ++ "" = s.
Proof.
  induction s as [|c s IH]; [done|].
  change (String c s ++ "") with (String c (s ++ "")). by rewrite IH.
Qed.

Lemma normalizedBy_intro parse parseStr row record kf :
  (forall v, parse v = parseStr (ToString v)) ->
  (forall z : Z, parseStr (pretty z) = num_of_Z z) ->
  isNaN (parseStr "undefined") = true ->
  isNaN (parseStr "") = true ->
  kf.2 record = js_or (parse (row !! kf.1)) pos0 ->
  normalizedBy parse row record kf.
Proof.
  intros Hparse Hpretty Hundef Hempty Hfield.
  unfold normalizedBy. cbv zeta. rewrite Hfield.
  split; [|split; [|split; [|split]]].
  - intros z ->. rewrite Hparse. cbn [ToString]. rewrite Hpretty.
    apply js_or_num_of_Z.
  - apply js_or_NaN.
  - intros [-> | ->]; apply js_or_NaN; by rewrite Hparse.
  - apply js_or_negative.
  - intros p ->. rewrite Hparse. cbn [ToString]. rewrite Hpretty.
    rewrite js_or_num_of_Z. apply num_of_Z_neg_negative.
Qed.

Lemma truncatedBy_intro parse parseStr hasPrefix continues row record kf :
  (forall v, parse v = parseStr (ToString v)) ->
  (forall s, isNaN (parseStr s) = negb (hasPrefix s)) ->
  (forall (z : Z) rest,
      continues rest = false -> parseStr (pretty z ++ rest) = num_of_Z z) ->
  kf.2 record = js_or (parse (row !! kf.1)) pos0 ->
  truncatedBy parseStr hasPrefix continues row record kf.
Proof.
  intros Hparse HNaN Hpretty Hfield cell Hcell. cbv zeta.
  rewrite Hfield, Hcell, Hparse. cbn [ToString].
  split; [|split].
  - intros H. apply js_or_NaN. by rewrite HNaN, H.
  - intros H.
    assert (isNaN (parseStr cell) = false) as Hn by by rewrite HNaN, H.
    split; [done|]. by apply js_or_cases.
  - intros z rest -> Hrest. rewrite Hpretty by done. apply js_or_num_of_Z.
Qed.

End Normalization.

(** C7.  Every row is normalized, and each of the four integer fields
    (read with [parseInt] in base 10) and the three real fields (read
    with [parseFloat]) holds: the integer of a decimal integer numeral;
    [0] for a cell without a number, for an empty cell and for a
    missing one; and a negative value as it is, not clamped.  A real
    field moreover holds the value of a decimal numeral with a
    fraction, rounded to the nearest double. *)
Theorem numeric_fields_are_parsed_with_zero_default :
  forall (Date_parse : string -> Date) (index : nat) (row : RawRow),
  exists record,
    processRow Date_parse index row = Normal record
    /\ Forall (normalizedBy parseInt row record) integerFields
    /\ Forall (normalizedBy parseFloat row record) realFields
    /\ Forall (fun kf =>
                 forall (neg : bool) (a : N) (ds : list N),
                   Forall (fun d => (d < 10)%N) ds ->
                   row !! kf.1 = Some (decimalNumeral neg a ds) ->
                   kf.2 record = js_or (decimalValue neg a ds) pos0)
         realFields.
Proof.
  intros Date_parse index row.
  destruct (processRow_fields Date_parse index row) as (record & H & Hi & Hr).
  exists record. split; [exact H|]. split; [|split].
  - eapply Forall_impl; [exact Hi|]. intros kf Hkf.
    apply (normalizedBy_intro parseInt parseIntStr); try done.
    intros z. rewrite <- (append_empty_r (pretty z)).
    by apply parseIntStr_pretty.
  - eapply Forall_impl; [exact Hr|]. intros kf Hkf.
    apply (normalizedBy_intro parseFloat parseFloatStr); try done.
    intros z. rewrite <- (append_empty_r (pretty z)).
    by apply parseFloatStr_pretty.
  - eapply Forall_impl; [exact Hr|]. intros kf Hkf neg a ds Hds Hcell.
    rewrite Hkf, Hcell. unfold parseFloat. cbn [ToString].
    by rewrite parseFloatStr_decimalNumeral.
Qed.

(** The refund row: -7 clicks and a cost of -2.5 stay negative. *)
Lemma numeric_fields_are_parsed_with_zero_default_witness :
  exists record,
    processRow isoDateOnlyParse 0 refundRow = Normal record
    /\ Clicks record = num_of_Z (-7)
    /\ isNegative (Clicks record) = true
    /\ Cost record = num_div (num_of_Z (-5)) (num_of_Z 2).
Proof.
  destruct (numeric_fields_are_parsed_with_zero_default isoDateOnlyParse 0
              refundRow) as (record & H & Hi & _ & Hd).
  exists record. split; [exact H|].
  apply Forall_cons in Hi as [(Hint & _ & _ & _ & Hneg) _].
  apply Forall_cons in Hd as [Hfrac _].
  split; [|split].
  - apply (Hint (-7)). vm_compute. reflexivity.
  - apply (Hneg 7%positive). vm_compute. reflexivity.
  - etrans; [apply (Hfrac true 2%N [5%N])|].
    + repeat constructor.
    + vm_compute. reflexivity.
    + vm_compute. reflexivity.
Defined.

(** C10.  A cell that starts with a numeral is not discarded: the
    fallback to [0] is for cells in which no numeral starts, and
    otherwise the field holds what the parser read.  An integer field
    drops whatever follows the digits, a real field whatever cannot
    prolong the numeral: '3.9' gives 3 clicks and '12abc' a cost of
    12. *)
Theorem partially_numeric_cells_are_truncated :
  forall (Date_parse : string -> Date) (index : nat) (row : RawRow),
  exists record,
    processRow Date_parse index row = Normal record
    /\ Forall (truncatedBy parseIntStr hasIntegerPrefix startsWithDigit
                 row record) integerFields
    /\ Forall (truncatedBy parseFloatStr hasDecimalPrefix continuesNumeral
                 row record) realFields
    /\ (row !! "Clicks" = Some "3.9" -> Clicks record = num_of_Z 3)
    /\ (row !! "Cost" = Some "12abc" -> Cost record = num_of_Z 12).
Proof.
  intros Date_parse index row.
  destruct (processRow_fields Date_parse index row) as (record & H & Hi & Hr).
  exists record. split; [exact H|].
  assert (Forall (truncatedBy parseIntStr hasIntegerPrefix startsWithDigit
                    row record) integerFields) as Hint.
  { eapply Forall_impl; [exact Hi|]. intros kf Hkf.
    apply (truncatedBy_intro parseInt parseIntStr);
      auto using parseIntStr_NaN, parseIntStr_pretty. }
  assert (Forall (truncatedBy parseFloatStr hasDecimalPrefix continuesNumeral
                    row record) realFields) as Hreal.
  { eapply Forall_impl; [exact Hr|]. intros kf Hkf.
    apply (truncatedBy_intro parseFloat parseFloatStr);
      auto using parseFloatStr_NaN, parseFloatStr_pretty. }
  split; [exact Hint|]. split; [exact Hreal|]. split.
  - intros Hcell. apply Forall_cons in Hint as [Hc _].
    destruct (Hc "3.9" Hcell) as (_ & _ & Htrunc).
    apply (Htrunc 3 ".9"); vm_compute; reflexivity.
  - intros Hcell. apply Forall_cons in Hreal as [Hc _].
    destruct (Hc "12abc" Hcell) as (_ & _ & Htrunc).
    apply (Htrunc 12 "abc"); vm_compute; reflexivity.
Qed.

(** The sloppy row loads with 3 clicks and a cost of 12. *)
Lemma partially_numeric_cells_are_truncated_witness :
  exists record,
    processRow isoDateOnlyParse 0 sloppyRow = Normal record
    /\ Clicks record = num_of_Z 3
    /\ Cost record = num_of_Z 12.
Proof.
  destruct (partially_numeric_cells_are_truncated isoDateOnlyParse 0 sloppyRow)
    as (record & H & _ & _ & Hclicks & Hcost).
  exists record. split; [exact H|]. split.
  - apply Hclicks. vm_compute. reflexivity.
  - apply Hcost. vm_compute. reflexivity.
Defined.

(* ===================================================================== *)
(** * More on filtering *)
(* ===================================================================== *)

Section FilterFacts.

Context {A : Type}.
Implicit Types (f g : A -> bool) (l : list A).

Lemma List_filter_filter f g l :
  List.filter f (List.filter g l) = List.filter (fun x => g x && f x) l.
Proof.
  induction l as [|x l IH]; [done|]. cbn [List.filter].
  destruct (g x); cbn [List.filter andb]; [|done].
  destruct (f x); by rewrite IH.
Qed.

Lemma List_filter_sublist_impl f g l :
  (forall x, f x = true -> g x = true) ->
  sublist (List.filter f l) (List.filter g l).
Proof.
  intros Hfg. induction l as [|x l IH]; [constructor|]. cbn [List.filter].
  destruct (f x) eqn:Hf.
  - rewrite (Hfg x Hf). by constructor.
  - destruct (g x); [by constructor|done].
Qed.

Lemma List_filter_none f l :
  (forall x, x ∈ l -> f x = false) -> List.filter f l = [].
Proof.
  intros H. induction l as [|x l IH]; [done|]. cbn [List.filter].
  rewrite (H x) by left. apply IH. intros y Hy. apply H. by right.
Qed.

End FilterFacts.

(** X1.  Filtering is idempotent: filtering the filtered records again
    with the same state changes nothing. *)
Theorem filteredData_idempotent :
  forall (data : list CampaignRecord) (filters : Filters),
    filteredData (filteredData data filters) filters = filteredData data filters.
Proof.
  intros data filters. unfold filteredData. rewrite List_filter_filter.
  apply filter_ext. intros r. apply andb_diag.
Qed.

(** X2.  Filters compose: filtering with one state and then with another
    gives the same records in either order, and filtering by a date
    range alone and then by an ad group alone is filtering by both at
    once. *)
Theorem filteredData_composes :
  forall (data : list CampaignRecord),
    (forall filters1 filters2 : Filters,
        filteredData (filteredData data filters1) filters2
        = filteredData (filteredData data filters2) filters1)
    /\ (forall (range : DateRange) (group : string),
          filteredData (filteredData data (onlyRange range)) (onlyGroup group)
          = filteredData data {| dateRange := range; adGroup := group |}).
Proof.
  intros data. split.
  - intros filters1 filters2. unfold filteredData. rewrite !List_filter_filter.
    apply filter_ext. intros r. apply andb_comm.
  - intros range group. unfold filteredData. rewrite List_filter_filter.
    apply filter_ext. intros r.
    change (inAdGroup (onlyRange range) r) with true.
    change (inDateRange (onlyGroup group) r) with true.
    change (inDateRange (onlyRange range) r)
      with (inDateRange {| dateRange := range; adGroup := group |} r).
    change (inAdGroup (onlyGroup group) r)
      with (inAdGroup {| dateRange := range; adGroup := group |} r).
    by rewrite andb_true_r.
Qed.

(** X3.  A wider date range keeps every record of a narrower one, in
    the same order: moving the lower bound back, moving the upper
    bound forward or dropping it.  Dropping the lower bound does the
    same whatever the upper bound becomes, because an upper bound
    without a lower bound is not applied. *)
Theorem widening_the_range_keeps_records :
  forall (data : list CampaignRecord) (group : string) (a a' : Z)
         (t t' : option Date),
    a' <= a ->
    (t' = None
     \/ exists b b', t = Some (TimeValue b) /\ t' = Some (TimeValue b')
                     /\ b <= b') ->
    sublist
      (filteredData data
         {| dateRange := {| from := Some (TimeValue a); to := t |};
            adGroup := group |})
      (filteredData data
         {| dateRange := {| from := Some (TimeValue a'); to := t' |};
            adGroup := group |})
    /\ forall t'' : option Date,
        sublist
          (filteredData data
             {| dateRange := {| from := Some (TimeValue a); to := t |};
                adGroup := group |})
          (filteredData data
             {| dateRange := {| from := None; to := t'' |};
                adGroup := group |}).
Proof.
  intros data group a a' t t' Ha Ht. split.
  - apply List_filter_sublist_impl. intros r.
    rewrite !andb_true_iff. intros [Hd Hg]. split; [|exact Hg].
    unfold inDateRange in *. cbn [from to dateRange] in *.
    apply andb_true_iff in Hd as [Hlow Hup]. apply andb_true_iff. split.
    + destruct (Start_Date r) as [|s]; [done|]. cbn [date_ge] in *. lia.
    + destruct Ht as [->|(b & b' & -> & -> & Hb)]; [done|].
      destruct (Start_Date r) as [|s]; [done|]. cbn [date_le] in *. lia.
  - intros t''. apply List_filter_sublist_impl. intros r.
    rewrite !andb_true_iff. by intros [_ Hg].
Qed.

(** January 2024 within the first quarter, on the three sample rows. *)
Lemma widening_the_range_keeps_records_witness :
  sublist
    (filteredData (loaded (load threeRows))
       {| dateRange := {| from := Some (TimeValue 1704067200000);
                          to := Some (TimeValue 1706659200000) |};
          adGroup := "All Ad Groups" |})
    (filteredData (loaded (load threeRows))
       {| dateRange := {| from := Some (TimeValue 1704067200000);
                          to := Some (TimeValue 1711843200000) |};
          adGroup := "All Ad Groups" |}).
Proof.
  apply (widening_the_range_keeps_records (loaded (load threeRows))
           "All Ad Groups" 1704067200000 1704067200000
           (Some (TimeValue 1706659200000)) (Some (TimeValue 1711843200000))).
  - lia.
  - right. exists 1706659200000, 1711843200000.
    split; [reflexivity|]. split; [reflexivity|lia].
Defined.

(** X4.  A range that cannot hold a date lets no record through: a
    lower bound that is an invalid date, an upper bound that is one,
    or an upper bound before the lower bound. *)
Theorem empty_date_range_excludes_all :
  forall (data : list CampaignRecord) (group : string) (lower : Date)
         (upper : option Date),
    (lower = InvalidDate
     \/ upper = Some InvalidDate
     \/ exists a b, lower = TimeValue a /\ upper = Some (TimeValue b) /\ b < a) ->
    filteredData data
      {| dateRange := {| from := Some lower; to := upper |}; adGroup := group |}
    = [].
Proof.
  intros data group lower upper H. apply List_filter_none. intros r _.
  apply andb_false_iff. left. unfold inDateRange. cbn [from to dateRange].
  destruct H as [->|[->|(a & b & -> & -> & Hab)]].
  - by destruct (Start_Date r).
  - destruct (Start_Date r); [done|]. apply andb_false_r.
  - destruct (Start_Date r) as [|s]; [done|]. cbn [date_ge date_le].
    apply andb_false_iff. lia.
Qed.

(** A range from February back to January, on the three sample rows. *)
Lemma empty_date_range_excludes_all_witness :
  filteredData (loaded (load threeRows))
    {| dateRange := {| from := Some (TimeValue 1706745600000);
                       to := Some (TimeValue 1704067200000) |};
       adGroup := "All Ad Groups" |}
  = [].
Proof.
  apply empty_date_range_excludes_all. right. right.
  exists 1706745600000, 1704067200000.
  split; [reflexivity|]. split; [reflexivity|lia].
Defined.

(** X5.  Selecting an ad group that no record has gives no record, and
    then the summary is the one of no data: every total and every ratio
    is [0]. *)
Theorem absent_ad_group_gives_zero_summary :
  forall (data : list CampaignRecord) (filters : Filters),
    adGroup filters <> "All Ad Groups" ->
    (forall r, r ∈ data -> Ad_Group r <> Some (adGroup filters)) ->
    filteredData data filters = []
    /\ summary (filteredData data filters) = allZeroSummary.
Proof.
  intros data filters Hsel Habsent.
  assert (filteredData data filters = []) as ->; [|done].
  apply List_filter_none. intros r Hr.
  apply andb_false_iff. right. unfold inAdGroup.
  apply orb_false_iff. split; [by apply String.eqb_neq|].
  specialize (Habsent r Hr). destruct (Ad_Group r) as [g|]; [|done].
  apply String.eqb_neq. congruence.
Qed.

(** The ad group 'Display' on the three sample rows. *)
Lemma absent_ad_group_gives_zero_summary_witness :
  summary (filteredData (loaded (load threeRows)) (onlyGroup "Display"))
  = allZeroSummary.
Proof.
  apply (absent_ad_group_gives_zero_summary (loaded (load threeRows))
           (onlyGroup "Display")).
  - discriminate.
  - intros r Hr. vm_compute in Hr.
    repeat (apply elem_of_cons in Hr as [->|Hr]; [vm_compute; discriminate|]).
    by apply elem_of_nil in Hr.
Defined.

(* ===================================================================== *)
(** * The options of the ad-group select *)
(* ===================================================================== *)

Section SetFacts.

Implicit Types (x : option string) (acc values : list (option string)).

Lemma elem_of_fold_setAdd values : forall acc x,
  x ∈ fold_left setAdd values acc <-> x ∈ acc \/ x ∈ values.
Proof.
  induction values as [|y values IH]; intros acc x; cbn [fold_left].
  - rewrite elem_of_nil. tauto.
  - rewrite IH, elem_of_cons. unfold setAdd.
    destruct (decide (y ∈ acc)) as [Hy|Hy].
    + split; [tauto|]. intros [?|[->|?]]; tauto.
    + rewrite elem_of_app, list_elem_of_singleton. tauto.
Qed.

Lemma NoDup_fold_setAdd values : forall acc,
  NoDup acc -> NoDup (fold_left setAdd values acc).
Proof.
  induction values as [|y values IH]; intros acc Hacc; cbn [fold_left]; [done|].
  apply IH. unfold setAdd. destruct (decide (y ∈ acc)) as [Hy|Hy]; [done|].
  apply NoDup_app. split; [done|]. split.
  - intros z Hz ->%list_elem_of_singleton. done.
  - apply NoDup_singleton.
Qed.

(** Adding to a set that already has elements: they stay in front, and
    the rest is what the values would add to the empty set, without
    them. *)
Lemma fold_setAdd_acc values : forall acc,
  fold_left setAdd values acc
  = (acc ++ filter (fun z => z ∉ acc) (fold_left setAdd values []))%list.
Proof.
  induction values as [|y values IH]; intros acc; cbn [fold_left].
  - by rewrite filter_nil, app_nil_r.
  - assert (setAdd [] y = [y]) as ->.
    { unfold setAdd. by rewrite decide_False by apply not_elem_of_nil. }
    rewrite (IH [y]), (IH (setAdd acc y)). cbn [app].
    set (rest := fold_left setAdd values []).
    unfold setAdd. destruct (decide (y ∈ acc)) as [Hy|Hy].
    + f_equal. rewrite filter_cons_False by (intros H; apply H, Hy).
      rewrite list_filter_filter. apply list_filter_iff. intros z. split.
      * intros Hz. split; [done|]. intros ->%list_elem_of_singleton. done.
      * by intros [? _].
    + rewrite <- app_assoc. f_equal. cbn [app].
      rewrite filter_cons_True by done. f_equal.
      rewrite list_filter_filter. apply list_filter_iff. intros z.
      rewrite not_elem_of_app, list_elem_of_singleton. tauto.
Qed.

Lemma newSet_cons x values :
  newSet (x :: values) = x :: filter (fun z => z <> x) (newSet values).
Proof.
  unfold newSet. cbn [fold_left].
  assert (setAdd [] x = [x]) as ->.
  { unfold setAdd. by rewrite decide_False by apply not_elem_of_nil. }
  rewrite fold_setAdd_acc. cbn [app]. f_equal.
  apply list_filter_iff. intros z. by rewrite list_elem_of_singleton.
Qed.

End SetFacts.

Lemma inAdGroup_onlyGroup group r :
  group <> "All Ad Groups" ->
  inDateRange (onlyGroup group) r && inAdGroup (onlyGroup group) r
  = bool_decide (Ad_Group r = Some group).
Proof.
  intros Hg. change (inDateRange (onlyGroup group) r) with true.
  cbn [andb]. unfold inAdGroup. cbn [adGroup onlyGroup].
  rewrite (proj2 (String.eqb_neq _ _) Hg). cbn [orb].
  destruct (Ad_Group r) as [g|]; [|done].
  destruct (String.eqb_spec g group) as [->|Hne].
  - by rewrite bool_decide_eq_true_2.
  - rewrite bool_decide_eq_false_2; [done|]. congruence.
Qed.

(** X6.  The select offers 'All Ad Groups' and then every ad group of
    the data once, in the order of their first rows; every group it
    offers shows at least one record; and its options are distinct
    exactly when no record has an ad group named 'All Ad Groups'. *)
Theorem adGroups_lists_each_group_once :
  forall data : list CampaignRecord,
  exists groups,
    adGroups data = Some "All Ad Groups" :: groups
    /\ NoDup groups
    /\ (forall o, o ∈ groups <-> exists r, r ∈ data /\ Ad_Group r = o)
    /\ (forall r rest,
          data = r :: rest ->
          groups = Ad_Group r
                   :: filter (fun o => o <> Ad_Group r)
                        (newSet (map Ad_Group rest)))
    /\ (forall group, Some group ∈ groups ->
          filteredData data (onlyGroup group) <> [])
    /\ (NoDup (adGroups data) <->
        forall r, r ∈ data -> Ad_Group r <> Some "All Ad Groups").
Proof.
  intros data. exists (newSet (map Ad_Group data)).
  assert (forall o, o ∈ newSet (map Ad_Group data)
                    <-> exists r, r ∈ data /\ Ad_Group r = o) as Hmem.
  { intros o. unfold newSet. rewrite elem_of_fold_setAdd, elem_of_nil.
    rewrite list_elem_of_fmap. split.
    - intros [[]|(r & -> & Hr)]. by exists r.
    - intros (r & Hr & <-). right. by exists r. }
  split; [done|]. split; [apply NoDup_fold_setAdd, NoDup_nil_2|].
  split; [exact Hmem|]. split; [|split].
  - intros r rest ->. apply newSet_cons.
  - intros group (r & Hr & Hg)%Hmem Hempty.
    assert (r ∈ filteredData data (onlyGroup group)) as Hin.
    { unfold filteredData. rewrite list_elem_of_In, filter_In, <- list_elem_of_In.
      split; [done|]. change (inDateRange (onlyGroup group) r) with true.
      cbn [andb]. unfold inAdGroup. rewrite Hg. cbn [adGroup onlyGroup].
      by rewrite String.eqb_refl, orb_true_r. }
    rewrite Hempty in Hin. by apply elem_of_nil in Hin.
  - unfold adGroups. rewrite NoDup_cons. rewrite Hmem. split.
    + intros [Hn _] r Hr Hg. apply Hn. by exists r.
    + intros H. split; [|apply NoDup_fold_setAdd, NoDup_nil_2].
      intros (r & Hr & Hg). by apply (H r).
Qed.

(** The three sample rows offer 'Brand' and 'Generic', which both show
    records. *)
Lemma adGroups_lists_each_group_once_witness :
  adGroups (loaded (load threeRows))
  = [Some "All Ad Groups"; Some "Brand"; Some "Generic"]
  /\ filteredData (loaded (load threeRows)) (onlyGroup "Generic") <> [].
Proof.
  destruct (adGroups_lists_each_group_once (loaded (load threeRows)))
    as (groups & Hg & _ & _ & _ & Hshow & _).
  split; [vm_compute; reflexivity|].
  apply Hshow.
  assert (groups = [Some "Brand"; Some "Generic"]) as ->.
  { assert (adGroups (loaded (load threeRows))
            = [Some "All Ad Groups"; Some "Brand"; Some "Generic"]) as E
      by (vm_compute; reflexivity).
    rewrite E in Hg. by injection Hg as <-. }
  apply elem_of_cons. right. apply list_elem_of_singleton. reflexivity.
Defined.

Section Partition.

Lemma sum_list_zero {A} (l : list A) : sum_list (map (fun _ => 0%nat) l) = 0%nat.
Proof. induction l as [|x l IH]; [done|]. exact IH. Qed.

Lemma sum_list_plus {A} (f g : A -> nat) (l : list A) :
  sum_list (map (fun x => (f x + g x)%nat) l)
  = (sum_list (map f l) + sum_list (map g l))%nat.
Proof.
  induction l as [|x l IH]; [done|].
  change (f x + g x + sum_list (map (fun x => f x + g x) l)
          = f x + sum_list (map f l) + (g x + sum_list (map g l)))%nat.
  rewrite IH. lia.
Qed.

Lemma sum_list_indicator (ks : list (option string)) (k : option string) :
  NoDup ks -> k ∈ ks ->
  sum_list (map (fun o => if decide (k = o) then 1%nat else 0%nat) ks) = 1%nat.
Proof.
  induction 1 as [|o ks Ho Hks IH]; [by intros ?%elem_of_nil|].
  intros Hk. cbn [map sum_list_with].
  destruct (decide (k = o)) as [->|Hne].
  - assert (sum_list (map (fun o' => if decide (o = o') then 1%nat else 0%nat) ks)
            = 0%nat) as ->; [|reflexivity].
    etrans; [|apply (sum_list_zero ks)]. f_equal. apply map_ext_in.
    intros o' Ho'%list_elem_of_In. rewrite decide_False; [reflexivity|].
    intros <-. exact (Ho Ho').
  - apply elem_of_cons in Hk as [?|Hk]; [done|]. rewrite IH by done.
    reflexivity.
Qed.

Lemma selectedCount_cons r data group :
  group <> "All Ad Groups" ->
  selectedCount (r :: data) (Some group)
  = ((if decide (Ad_Group r = Some group) then 1 else 0)
     + selectedCount data (Some group))%nat.
Proof.
  intros Hg. unfold selectedCount, filteredData. cbn [List.filter].
  rewrite inAdGroup_onlyGroup by done.
  destruct (decide (Ad_Group r = Some group)) as [E|E].
  - by rewrite bool_decide_eq_true_2.
  - by rewrite bool_decide_eq_false_2.
Qed.

Lemma selectedCount_sum (ks : list (option string)) :
  NoDup ks ->
  (forall o, o ∈ ks -> exists group, o = Some group /\ group <> "All Ad Groups") ->
  forall data : list CampaignRecord,
    (forall r, r ∈ data -> Ad_Group r ∈ ks) ->
    sum_list (map (selectedCount data) ks) = length data.
Proof.
  intros Hks Hsome. induction data as [|r data IH]; intros Hin.
  - etrans; [|apply (sum_list_zero ks)]. f_equal. apply map_ext_in.
    intros o (g & -> & _)%list_elem_of_In%Hsome. reflexivity.
  - assert (map (selectedCount (r :: data)) ks
            = map (fun o => ((if decide (Ad_Group r = o) then 1 else 0)
                             + selectedCount data o)%nat) ks) as ->.
    { apply map_ext_in. intros o (g & -> & Hg)%list_elem_of_In%Hsome.
      by apply selectedCount_cons. }
    rewrite sum_list_plus, sum_list_indicator, IH; [done| |done|].
    + intros r' Hr'. apply Hin. by right.
    + apply Hin. by left.
Qed.

End Partition.

(** X7.  When every record has an ad group, and none is named 'All Ad
    Groups', the ad groups of the select split the records: the numbers
    of records shown for each group add up to the number of records. *)
Theorem ad_groups_partition_the_records :
  forall data : list CampaignRecord,
    (forall r, r ∈ data ->
       exists group, Ad_Group r = Some group /\ group <> "All Ad Groups") ->
    sum_list (map (selectedCount data) (newSet (map Ad_Group data)))
    = length data.
Proof.
  intros data Hdata.
  assert (forall o, o ∈ newSet (map Ad_Group data)
                    <-> exists r, r ∈ data /\ Ad_Group r = o) as Hmem.
  { intros o. unfold newSet. rewrite elem_of_fold_setAdd, elem_of_nil.
    rewrite list_elem_of_fmap. split.
    - intros [[]|(r & -> & Hr)]. by exists r.
    - intros (r & Hr & <-). right. by exists r. }
  apply selectedCount_sum.
  - apply NoDup_fold_setAdd, NoDup_nil_2.
  - intros o (r & Hr & <-)%Hmem. by apply Hdata.
  - intros r Hr. apply Hmem. by exists r.
Qed.

(** Two records of 'Brand' and one of 'Generic' are the three sample
    records. *)
Lemma ad_groups_partition_the_records_witness :
  sum_list (map (selectedCount (loaded (load threeRows)))
              (newSet (map Ad_Group (loaded (load threeRows)))))
  = 3%nat.
Proof.
  apply (ad_groups_partition_the_records (loaded (load threeRows))).
  intros r Hr. vm_compute in Hr.
  repeat (apply elem_of_cons in Hr as [->|Hr];
          [eexists; split; [vm_compute; reflexivity|discriminate]|]).
  by apply elem_of_nil in Hr.
Defined.

(* ===================================================================== *)
(** * The records of a load *)
(* ===================================================================== *)

Section LoadedRecords.

Variable Date_parse : string -> Date.

Lemma map_indexed_spec {A B} (f : nat -> A -> completion B) (g : nat -> A -> B) :
  (forall index x, f index x = Normal (g index x)) ->
  forall l index,
    map_indexed f index l = Normal (imap (fun i => g (index + i)%nat) l).
Proof.
  intros Hf. induction l as [|x l IH]; intros index; cbn [map_indexed]; [done|].
  rewrite Hf, (IH (S index)). cbn [imap]. rewrite Nat.add_0_r.
  do 2 f_equal. apply imap_ext. intros i y _. cbn. f_equal. lia.
Qed.

Lemma processRow_id index row :
  exists record,
    processRow Date_parse index row = Normal record
    /\ id record = idOf index row /\ cells record = row.
Proof. eexists. split; [reflexivity|]. by split. Qed.

Lemma shr_fexp_exponent m e l :
  SpecFloat.emin prec emax <= snd (shr_fexp prec emax m e l).
Proof.
  unfold shr_fexp, shr.
  destruct (fexp prec emax (Zdigits2 m + e) - e) as [|p|p] eqn:E; cbn [snd];
    unfold fexp in E; lia.
Qed.

Lemma binary_round_aux_aboveEmin sx mx ex lx :
  aboveEmin (binary_round_aux prec emax sx mx ex lx).
Proof.
  unfold binary_round_aux.
  destruct (shr_fexp prec emax mx ex lx) as [mrs' e'].
  pose proof (shr_fexp_exponent
    (round_nearest_even (shr_m mrs') (loc_of_shr_record mrs')) e' loc_Exact) as H.
  destruct (shr_fexp prec emax _ e' loc_Exact) as [mrs'' e'']. cbn [snd] in H.
  destruct (shr_m mrs''); [done| |done].
  by destruct (e'' <=? emax - prec).
Qed.

Lemma binary_normalize_aboveEmin m e szero :
  aboveEmin (binary_normalize prec emax m e szero).
Proof.
  destruct m; [done|..]; cbn [binary_normalize]; unfold binary_round;
    destruct (shl_align _ _ _); apply binary_round_aux_aboveEmin.
Qed.

Lemma aboveEmin_neg x : aboveEmin x -> aboveEmin (num_neg x).
Proof. by destruct x. Qed.

Lemma aboveEmin_applySign neg x : aboveEmin x -> aboveEmin (applySign neg x).
Proof. destruct neg; [apply aboveEmin_neg|done]. Qed.

Lemma num_of_decimal_aboveEmin m e10 : aboveEmin (num_of_decimal m e10).
Proof.
  unfold num_of_decimal. destruct (0 <=? e10).
  - apply binary_normalize_aboveEmin.
  - unfold num_of_ratio. destruct m; [done|..];
      destruct (SFdiv_core_binary _ _ _ _ _ _) as [[q e] l];
      apply binary_round_aux_aboveEmin.
Qed.

Lemma parseIntStr_aboveEmin s : aboveEmin (parseIntStr s).
Proof.
  unfold parseIntStr. destruct (readSign (trimStart s)) as [neg t].
  destruct (readDigits 0 0 t) as [[v k] r]. destruct k; [done|].
  apply aboveEmin_applySign, binary_normalize_aboveEmin.
Qed.

Lemma parseFloatStr_aboveEmin s : aboveEmin (parseFloatStr s).
Proof.
  unfold parseFloatStr. destruct (readSign (trimStart s)) as [neg t].
  apply aboveEmin_applySign. unfold readUnsignedDecimal.
  destruct (String.prefix "Infinity" t); [done|].
  destruct (readDigits 0 0 t) as [[ip n1] r1].
  destruct (startsWith "." r1).
  - destruct (readDigits ip 0 (tail r1)) as [[m n2] r3].
    destruct n1, n2; try done; apply num_of_decimal_aboveEmin.
  - destruct n1; [done|]. apply num_of_decimal_aboveEmin.
Qed.

(** [x || 0] is never NaN and never [-0]. *)
Lemma js_or_settled x : aboveEmin x -> isNaN (js_or x pos0) = false /\ settled (js_or x pos0).
Proof. destruct x as [[]|[]| |]; by repeat split. Qed.

Lemma processRow_normalized index row :
  exists record,
    processRow Date_parse index row = Normal record /\ normalizedRecord record.
Proof.
  eexists. split; [reflexivity|].
  unfold normalizedRecord, integerFields, realFields. cbn [app].
  repeat constructor; cbn [fst snd Clicks Cost Avg_CPC Installs Trials
    Subscriptions Subscription_Value];
    apply js_or_settled; first [apply parseIntStr_aboveEmin
                               |apply parseFloatStr_aboveEmin].
Qed.

End LoadedRecords.

(** X8.  The records of a load stand for the rows one for one and in
    order, each keeping the cells of its row; the id of a record is the
    index of its row, unless the file has a column 'id', whose cell then
    takes its place.  Without such a column the ids are 0, 1, 2, ... and
    the rows of the table have distinct keys under every filter. *)
Theorem record_ids_are_row_indices :
  forall (Date_parse : string -> Date) (data : list RawRow),
  exists records,
    processedData Date_parse data = Normal records
    /\ map cells records = data
    /\ map id records = imap idOf data
    /\ ((forall row, row ∈ data -> row !! "id" = None) ->
        map id records = map IdIndex (seq 0 (length data))
        /\ forall filters,
            NoDup (map id (tableRows (filteredData records filters)))).
Proof.
  intros Date_parse data.
  pose (g := fun index row =>
    match processRow Date_parse index row with
    | Normal record => record
    | Throw _ => blankRecord index
    end).
  assert (forall index row,
            processRow Date_parse index row = Normal (g index row)
            /\ id (g index row) = idOf index row
            /\ cells (g index row) = row) as Hg.
  { intros index row. subst g. cbv beta.
    by destruct (processRow_id Date_parse index row) as (record & -> & ? & ?). }
  assert (processedData Date_parse data = Normal (imap g data)) as Hrun.
  { unfold processedData.
    rewrite (map_indexed_spec (processRow Date_parse) g) by apply Hg.
    reflexivity. }
  exists (imap g data). split; [exact Hrun|].
  assert (map id (imap g data) = imap idOf data) as Hids.
  { change (map id (imap g data)) with (id <$> imap g data).
    rewrite fmap_imap. apply imap_ext. intros i row _. apply Hg. }
  split; [|split; [exact Hids|]].
  - change (map cells (imap g data)) with (cells <$> imap g data).
    rewrite fmap_imap.
    rewrite (imap_ext _ (const (fun row => row))) by (intros i row _; apply Hg).
    rewrite imap_const. apply list_fmap_id.
  - intros Hnoid.
    assert (map id (imap g data) = map IdIndex (seq 0 (length data))) as Hseq.
    { rewrite Hids.
      change (map IdIndex (seq 0 (length data)))
        with (IdIndex <$> seq 0 (length data)).
      rewrite <- (imap_seq_0 data IdIndex). apply imap_ext.
      intros i row Hrow. unfold idOf.
      by rewrite (Hnoid row) by (by eapply list_elem_of_lookup_2). }
    split; [exact Hseq|]. intros filters.
    assert (NoDup (map id (imap g data))) as Hdistinct.
    { rewrite Hseq.
      assert (Inj eq eq IdIndex) by (by intros ?? [=]).
      apply (NoDup_fmap_2 IdIndex), NoDup_seq. }
    apply (sublist_NoDup _ _ Hdistinct).
    apply (fmap_sublist id). etrans; [apply sublist_take|].
    apply List_filter_sublist.
Qed.

(** The three sample rows have no column 'id': their records have the
    ids 0, 1 and 2. *)
Lemma record_ids_are_row_indices_witness :
  exists records,
    processedData isoDateOnlyParse threeRows = Normal records
    /\ map id records = [IdIndex 0; IdIndex 1; IdIndex 2].
Proof.
  destruct (record_ids_are_row_indices isoDateOnlyParse threeRows)
    as (records & Hrun & _ & _ & Hids).
  exists records. split; [exact Hrun|].
  apply Hids. intros row Hrow.
  repeat (apply elem_of_cons in Hrow as [->|Hrow]; [vm_compute; reflexivity|]).
  by apply elem_of_nil in Hrow.
Defined.

(** X10.  The funnel has the four stages Clicks, Installs, Trials and
    Subscriptions in this order, no stage without a value, and the value
    of a stage is the sum of its column over the records that pass the
    filters. *)
Theorem funnel_stages_are_the_filtered_column_sums :
  forall (data : list CampaignRecord) (filters : Filters),
    let shown := filteredData data filters in
    funnelData (summary shown)
    = [("Clicks", Some (Sigma (map Clicks shown)));
       ("Installs", Some (Sigma (map Installs shown)));
       ("Trials", Some (Sigma (map Trials shown)));
       ("Subscriptions", Some (Sigma (map Subscriptions shown)))].
Proof.
  intros data filters shown. unfold funnelData, FUNNEL_STAGES. cbn [map].
  unfold Summary.get. cbn [String.eqb Ascii.eqb Bool.eqb].
  unfold summary, totals, Sigma.
  cbn [Summary.Clicks Summary.Installs Summary.Trials Summary.Subscriptions].
  by rewrite fold_accumulate_Clicks, fold_accumulate_Installs,
    fold_accumulate_Trials, fold_accumulate_Subscriptions.
Qed.

(* ===================================================================== *)
(** * More on aggregation *)
(* ===================================================================== *)

Section Sums.

Lemma map_indexed_Forall {A B} (f : nat -> A -> completion B) (P : B -> Prop) :
  (forall index x y, f index x = Normal y -> P y) ->
  forall l index ys, map_indexed f index l = Normal ys -> Forall P ys.
Proof.
  intros Hf. induction l as [|x l IH]; intros index ys; cbn [map_indexed].
  - by intros [= <-].
  - destruct (f index x) as [y|] eqn:Hy; [|done].
    destruct (map_indexed f (S index) l) as [ys'|] eqn:Hys; [|done].
    intros [= <-]. constructor; eauto.
Qed.

Lemma num_add_not_NaN a x :
  isNaN a = false -> isFinite x = true -> isNaN (num_add a x) = false.
Proof.
  destruct a as [sa|sa| |sa ma ea], x as [sx|sx| |sx mx ex]; try done.
  - by destruct sa, sx.
  - intros _ _. apply binary_normalize_not_NaN.
Qed.

Lemma fold_num_add_not_NaN column : forall acc,
  isNaN acc = false -> Forall (fun x => isFinite x = true) column ->
  isNaN (fold_left num_add column acc) = false.
Proof.
  induction column as [|x column IH]; intros acc Hacc Hfin; [done|].
  apply Forall_cons in Hfin as [Hx Hfin]. cbn [fold_left].
  apply IH; [|done]. by apply num_add_not_NaN.
Qed.

Lemma num_add_zero a z : a <> S754_zero true -> isZero z = true -> num_add a z = a.
Proof. destruct a as [[]|[]| |], z as [[]| | |]; done. Qed.

Lemma num_add_settled a x : settled a -> aboveEmin x -> settled (num_add a x).
Proof.
  intros [Ha Hea] Hex.
  destruct a as [sa|sa| |sa ma ea], x as [sx|sx| |sx mx ex]; try done;
    try (by destruct sa, sx).
  cbn in Hea, Hex. unfold num_add, SFadd.
  set (ez := Z.min ea ex).
  assert (SpecFloat.emin prec emax <= ez) as Hez by (subst ez; lia).
  destruct (cond_Zopp sa _ + cond_Zopp sx _) as [|p|p]; [done|..];
    cbn [binary_normalize]; unfold binary_round;
    destruct (shl_align p ez _) as [mz ez'] eqn:E;
    (assert (SpecFloat.emin prec emax <= ez') as Hez';
     [unfold shl_align in E;
      destruct (fexp prec emax (Z.pos (digits2_pos p) + ez) - ez) eqn:E';
      injection E as <- <-; unfold fexp in *; lia|]).
  - split; [|exact (binary_round_aux_aboveEmin false (Z.pos mz) ez' loc_Exact)].
    pose proof (binary_round_aux_truthy false (Z.pos mz) ez' loc_Exact
      ltac:(lia) Hez') as Hnz.
    intros Hz. by rewrite Hz in Hnz.
  - split; [|exact (binary_round_aux_aboveEmin true (Z.pos mz) ez' loc_Exact)].
    pose proof (binary_round_aux_truthy true (Z.pos mz) ez' loc_Exact
      ltac:(lia) Hez') as Hnz.
    intros Hz. by rewrite Hz in Hnz.
Qed.

Lemma num_mul_aboveEmin x y : aboveEmin (num_mul x y).
Proof.
  destruct x as [sx|sx| |sx mx ex], y as [sy|sy| |sy my ey]; try done.
  apply binary_round_aux_aboveEmin.
Qed.

End Sums.

(** X11.  After a load no numeric field of any record is NaN, and none
    is [-0]: what [parseInt] or [parseFloat] could not read, and a zero
    of either sign, has become [0]. *)
Theorem loaded_fields_are_never_NaN :
  forall (Date_parse : string -> Date) (data : list RawRow),
  exists records,
    processedData Date_parse data = Normal records
    /\ Forall normalizedRecord records
    /\ Forall (fun r =>
                 Forall (fun kf : string * (CampaignRecord -> number) =>
                           isNaN (kf.2 r) = false /\ kf.2 r <> S754_zero true)
                   (integerFields ++ realFields))
         records.
Proof.
  intros Date_parse data.
  destruct (processedData_Normal Date_parse data) as (records & Hrun & _).
  exists records. split; [exact Hrun|].
  assert (Forall normalizedRecord records) as Hn.
  { apply (map_indexed_Forall (processRow Date_parse) normalizedRecord) in Hrun;
      [done|].
    intros index row record Hrow.
    destruct (processRow_normalized Date_parse index row) as (r & Hr & Hnorm).
    congruence. }
  split; [exact Hn|].
  eapply Forall_impl; [exact Hn|]. intros r Hr.
  eapply Forall_impl; [exact Hr|]. by intros kf (? & ? & _).
Qed.

Lemma finiteFields_columns R :
  Forall finiteFields R ->
  Forall (fun x => isFinite x = true) (map Clicks R)
  /\ Forall (fun x => isFinite x = true) (map Cost R)
  /\ Forall (fun x => isFinite x = true) (map Installs R)
  /\ Forall (fun x => isFinite x = true) (map Trials R)
  /\ Forall (fun x => isFinite x = true) (map Subscriptions R).
Proof.
  induction 1 as [|r R Hr _ IH]; [by repeat split|].
  destruct IH as (? & ? & ? & ? & ?).
  unfold finiteFields, integerFields, realFields in Hr. cbn [app] in Hr.
  apply Forall_cons in Hr as [Hcl Hr]. apply Forall_cons in Hr as [Hin Hr].
  apply Forall_cons in Hr as [Htr Hr]. apply Forall_cons in Hr as [Hsu Hr].
  apply Forall_cons in Hr as [Hco _].
  cbn [map]. by repeat split; constructor.
Qed.

(** X12.  When every numeric field of every record is finite, the
    totals of clicks, cost, installs, trials and subscriptions are not
    NaN, however large the data: a running sum can overflow to an
    infinity, and an infinity plus a finite number stays that
    infinity. *)
Theorem totals_of_finite_fields_are_not_NaN :
  forall R : list CampaignRecord,
    Forall finiteFields R ->
    isNaN (Summary.Clicks (summary R)) = false
    /\ isNaN (Summary.Cost (summary R)) = false
    /\ isNaN (Summary.Installs (summary R)) = false
    /\ isNaN (Summary.Trials (summary R)) = false
    /\ isNaN (Summary.Subscriptions (summary R)) = false.
Proof.
  intros R (Hcl & Hco & Hin & Htr & Hsu)%finiteFields_columns.
  unfold summary, totals.
  cbn [Summary.Clicks Summary.Cost Summary.Installs Summary.Trials
       Summary.Subscriptions].
  rewrite fold_accumulate_Clicks, fold_accumulate_Cost,
    fold_accumulate_Installs, fold_accumulate_Trials,
    fold_accumulate_Subscriptions.
  repeat split; by apply fold_num_add_not_NaN.
Qed.

(** The three sample records have finite fields. *)
Lemma totals_of_finite_fields_are_not_NaN_witness :
  isNaN (Summary.Cost (summary (loaded (load threeRows)))) = false.
Proof.
  apply (totals_of_finite_fields_are_not_NaN (loaded (load threeRows))).
  vm_compute. repeat constructor.
Defined.

Section BlankRows.

Lemma accumulate_settled acc r :
  settledTotals acc -> normalizedRecord r -> settledTotals (accumulate acc r).
Proof.
  intros (Hcl & Hco & Hin & Htr & Hsu & Hsv) Hr.
  unfold normalizedRecord, integerFields, realFields in Hr. cbn [app] in Hr.
  apply Forall_cons in Hr as [(_ & _ & Hcl') Hr].
  apply Forall_cons in Hr as [(_ & _ & Hin') Hr].
  apply Forall_cons in Hr as [(_ & _ & Htr') Hr].
  apply Forall_cons in Hr as [(_ & _ & Hsu') Hr].
  apply Forall_cons in Hr as [(_ & _ & Hco') _].
  unfold settledTotals, accumulate.
  cbn [Totals.Clicks Totals.Cost Totals.Installs Totals.Trials
       Totals.Subscriptions Totals.Subscription_Value].
  repeat split; try (by apply num_add_settled); apply num_add_settled;
    try done; apply num_mul_aboveEmin.
Qed.

Lemma totals_settled R : Forall normalizedRecord R -> settledTotals (totals R).
Proof.
  unfold totals. assert (settledTotals initial) as Hinit by by repeat split.
  revert Hinit. generalize initial.
  induction R as [|r R IH]; intros acc Hacc HR; [done|].
  apply Forall_cons in HR as [Hr HR]. cbn [fold_left].
  apply IH; [|done]. by apply accumulate_settled.
Qed.

Lemma accumulate_countsNothing acc z :
  settledTotals acc -> countsNothing z -> accumulate acc z = acc.
Proof.
  intros ([Hcl _] & [Hco _] & [Hin _] & [Htr _] & [Hsu _] & [Hsv _]).
  intros (Ecl & Eco & Ein & Etr & Esu & Hv).
  destruct acc as [cl co ins tr su sv]. unfold accumulate.
  cbn [Totals.Clicks Totals.Cost Totals.Installs Totals.Trials
       Totals.Subscriptions Totals.Subscription_Value] in *.
  rewrite Ecl, Eco, Ein, Etr, Esu.
  rewrite !num_add_zero; try done.
  by destruct (Subscription_Value z) as [[]| | |[]].
Qed.

End BlankRows.

(** X13.  A record that counts nothing (no click, cost, install, trial
    or subscription) changes no total and no ratio, wherever it stands
    among the records of a load. *)
Theorem record_that_counts_nothing_changes_nothing :
  forall (R1 R2 : list CampaignRecord) (z : CampaignRecord),
    Forall normalizedRecord R1 ->
    countsNothing z ->
    summary (R1 ++ z :: R2) = summary (R1 ++ R2).
Proof.
  intros R1 R2 z HR1 Hz.
  assert (totals (R1 ++ z :: R2) = totals (R1 ++ R2)) as Ht.
  { unfold totals. rewrite !fold_left_app. cbn [fold_left].
    f_equal. apply accumulate_countsNothing; [|done].
    by apply totals_settled. }
  unfold summary. by rewrite Ht.
Qed.

(** The record of a row of empty cells, between the records of two
    sample rows. *)
Lemma record_that_counts_nothing_changes_nothing_witness :
  exists z,
    loaded (load [blankRow]) = [z]
    /\ summary (loaded (load [brandRow]) ++ z :: loaded (load [genericRow]))
       = summary (loaded (load [brandRow]) ++ loaded (load [genericRow])).
Proof.
  eexists. split; [vm_compute; reflexivity|].
  apply record_that_counts_nothing_changes_nothing.
  - vm_compute. repeat constructor; discriminate.
  - vm_compute. by repeat split.
Defined.

Lemma accumulate_aggregated acc r r' :
  aggregated r = aggregated r' -> accumulate acc r = accumulate acc r'.
Proof. unfold aggregated, accumulate. by intros [= -> -> -> -> -> ->]. Qed.

(** X14.  The summary reads six columns only: records that agree on
    clicks, cost, installs, trials, subscriptions and subscription value
    have the same summary, whatever their cost per click, their dates,
    their ad group and their other cells are. *)
Theorem summary_reads_six_columns :
  forall R R' : list CampaignRecord,
    map aggregated R = map aggregated R' -> summary R = summary R'.
Proof.
  intros R R' H.
  assert (totals R = totals R') as Ht.
  { unfold totals. generalize initial. revert R' H.
    induction R as [|r R IH]; intros [|r' R'] H acc; try done.
    cbn [map] in H. cbn [fold_left].
    assert (aggregated r = aggregated r') as Hr by congruence.
    assert (map aggregated R = map aggregated R') as HR by congruence.
    rewrite (accumulate_aggregated acc r r' Hr). by apply IH. }
  unfold summary. by rewrite Ht.
Qed.

(** The scenario under another ad group, with other dates and another
    cost per click. *)
Lemma summary_reads_six_columns_witness :
  summary (loaded (load [scenarioRow'])) = summary (loaded (load [scenarioRow])).
Proof.
  apply summary_reads_six_columns. vm_compute. reflexivity.
Defined.

(* ===================================================================== *)
(** * Uploading *)
(* ===================================================================== *)

(** X15.  A drop never leaves the upload box in its 'Processing...'
    state; a drop that ends with an error message keeps the data that
    were loaded before; and a drop that changes the data clears the
    error and delivers one record for every row of the file. *)
Theorem onDrop_settles :
  forall (Date_parse : string -> Date) (File : Type)
         (Papa_parse : File -> PapaResult) (papaLoaded : bool)
         (acceptedFiles : list File) (st : App.state),
    let after := onDrop Date_parse File Papa_parse papaLoaded acceptedFiles
                   st false in
    after.2 = false
    /\ (forall message,
          App.error after.1 = Some message -> App.data after.1 = App.data st)
    /\ (App.data after.1 = App.data st
        \/ exists file rest data fields records,
            acceptedFiles = file :: rest
            /\ Papa_parse file = PapaComplete data [] fields
            /\ processedData Date_parse data = Normal records
            /\ length records = length data
            /\ App.data after.1 = Some records
            /\ App.error after.1 = None).
Proof.
  intros Date_parse File Papa_parse papaLoaded acceptedFiles st after.
  subst after. unfold onDrop.
  destruct acceptedFiles as [|file rest]; [by split; [|split; [|left]]|].
  destruct papaLoaded; cbn [negb]; [|by split; [|split; [|left]]].
  destruct (Papa_parse file) as [data errors fields|message] eqn:Hparse;
    [|by split; [|split; [|left]]].
  unfold complete.
  destruct errors as [|e errors]; [|by split; [|split; [|left]]].
  destruct (0 <? length (missingColumns fields))%nat; [by split; [|split; [|left]]|].
  destruct (processedData_Normal Date_parse data) as (records & Hrun & Hlen).
  rewrite Hrun. cbn [fst snd]. split; [done|]. split; [done|].
  right. by exists file, rest, data, fields, records.
Qed.

(** X16.  A file with the required columns and no data row is a
    successful load: the dashboard is shown, with no record, one select
    option, an empty table and a summary of zeros under every filter
    state. *)
Theorem header_only_file_shows_an_empty_dashboard :
  forall (Date_parse : string -> Date) (File : Type)
         (Papa_parse : File -> PapaResult) (file : File) (rest : list File)
         (fields : list string) (st : App.state) (loading : bool),
    Papa_parse file = PapaComplete [] [] fields ->
    missingColumns fields = [] ->
    let after := onDrop Date_parse File Papa_parse true (file :: rest)
                   st loading in
    after = ({| App.data := Some []; App.error := None |}, false)
    /\ showsDashboard after.1 = true
    /\ adGroups [] = [Some "All Ad Groups"]
    /\ forall filters : Filters,
        filteredData [] filters = []
        /\ tableRows (filteredData [] filters) = []
        /\ summary (filteredData [] filters) = allZeroSummary.
Proof.
  intros Date_parse File Papa_parse file rest fields st loading Hparse Hfields
    after.
  assert (after = ({| App.data := Some []; App.error := None |}, false)) as ->.
  { subst after. unfold onDrop. cbn [negb]. rewrite Hparse.
    unfold complete. by rewrite Hfields. }
  by repeat split.
Qed.

(** The template that the application offers, uploaded as it is. *)
Lemma header_only_file_shows_an_empty_dashboard_witness :
  showsDashboard
    (onDrop isoDateOnlyParse unit (fun _ => PapaComplete [] [] REQUIRED_COLUMNS)
       true [tt] initialApp false).1
  = true.
Proof.
  apply (header_only_file_shows_an_empty_dashboard isoDateOnlyParse unit
           (fun _ => PapaComplete [] [] REQUIRED_COLUMNS) tt [] REQUIRED_COLUMNS
           initialApp false eq_refl eq_refl).
Defined.

(* ===================================================================== *)
(** * The callback on cells of any primitive type *)
(* ===================================================================== *)

Section JsLoading.

Variable Date_parse : string -> Date.

Lemma Js_get_stringRow (row : RawRow) key :
  Js.get (stringRow row) key = Normal (cellValue (row !! key)).
Proof.
  unfold Js.get, stringRow, cellValue. rewrite lookup_fmap.
  unfold RawRow in *. by destruct (row !! key).
Qed.

Lemma Js_parseInt_string (cell : option string) :
  Js.parseInt (cellValue cell) = Normal (parseInt cell).
Proof. by destruct cell. Qed.

Lemma Js_parseFloat_string (cell : option string) :
  Js.parseFloat (cellValue cell) = Normal (parseFloat cell).
Proof. by destruct cell. Qed.

Lemma Js_newDate_string (cell : option string) :
  Js.newDate Date_parse (cellValue cell)
  = Normal (newDate Date_parse cell).
Proof. by destruct cell. Qed.

(** On a row of strings the callback on any values does what
    [processRow] does. *)
Lemma Js_processRow_stringRow index (row : RawRow) :
  exists record,
    processRow Date_parse index row = Normal record
    /\ Js.processRow Date_parse index (stringRow row)
       = Normal (stringRecord record).
Proof.
  eexists. split; [reflexivity|].
  unfold Js.processRow. rewrite !Js_get_stringRow.
  cbn [mbind completion_bind].
  rewrite !Js_parseInt_string, !Js_parseFloat_string, !Js_newDate_string.
  cbn [mbind completion_bind try_catch]. f_equal.
  unfold stringRecord, stringRow.
  cbn [Js.spread id cells Clicks Cost Avg_CPC Installs Trials Subscriptions
       Subscription_Value Start_Date End_Date].
  f_equal. rewrite lookup_fmap. unfold RawRow in *. by destruct (row !! "id").
Qed.

Lemma map_indexed_fmap {A B B'} (f : nat -> A -> completion B)
    (g : nat -> A -> completion B') (h : B -> B') :
  (forall index x y, f index x = Normal y -> g index x = Normal (h y)) ->
  forall l index ys,
    map_indexed f index l = Normal ys ->
    map_indexed g index l = Normal (map h ys).
Proof.
  intros Hfg. induction l as [|x l IH]; intros index ys; cbn [map_indexed].
  - by intros [= <-].
  - destruct (f index x) as [y|] eqn:Ef; [|done].
    destruct (map_indexed f (S index) l) as [ys'|] eqn:El; [|done].
    intros [= <-]. by rewrite (Hfg _ _ _ Ef), (IH _ _ El).
Qed.

Lemma map_indexed_map {A A' B} (f : nat -> A' -> completion B) (k : A -> A')
    l index :
  map_indexed f index (map k l) = map_indexed (fun i x => f i (k x)) index l.
Proof.
  revert index. induction l as [|x l IH]; intros index; cbn [map map_indexed];
    [done|].
  by rewrite IH.
Qed.

Lemma Js_processedData_stringRows (data : list RawRow) :
  exists records,
    processedData Date_parse data = Normal records
    /\ length records = length data
    /\ Js.processedData Date_parse (map stringRow data)
       = Normal (map stringRecord records).
Proof.
  destruct (processedData_Normal Date_parse data) as (records & Hrun & Hlen).
  exists records. split; [done|]. split; [done|].
  unfold Js.processedData. rewrite map_indexed_map.
  apply (map_indexed_fmap (processRow Date_parse)); [|exact Hrun].
  intros index row record Hrow.
  destruct (Js_processRow_stringRow index row) as (record' & Hrow' & ->).
  congruence.
Qed.

Lemma Js_parseInt_converts cells key :
  converts (Js.get (Js.Object cells) key ≫= Js.parseInt) cells key.
Proof.
  unfold converts, Js.get. cbn [mbind completion_bind].
  destruct (cells !! key) as [[| |b|s|]|]; cbn;
    try (right; split; [done|by eexists]).
  left. split; [done|by eexists].
Qed.

Lemma Js_parseFloat_converts cells key :
  converts (Js.get (Js.Object cells) key ≫= Js.parseFloat) cells key.
Proof.
  unfold converts, Js.get. cbn [mbind completion_bind].
  destruct (cells !! key) as [[| |b|s|]|]; cbn;
    try (right; split; [done|by eexists]).
  left. split; [done|by eexists].
Qed.

Lemma Js_newDate_converts cells key :
  converts (Js.get (Js.Object cells) key ≫= Js.newDate Date_parse) cells key.
Proof.
  unfold converts, Js.get. cbn [mbind completion_bind].
  destruct (cells !! key) as [[| |b|s|]|]; cbn;
    try (right; split; [done|by eexists]).
  left. split; [done|by eexists].
Qed.

Lemma Js_processRow_Normal_iff index row :
  (exists record, Js.processRow Date_parse index row = Normal record)
  <-> exists cells,
        row = Js.Object cells
        /\ Forall (fun key => cells !! key <> Some Js.Symbol) convertedKeys.
Proof.
  destruct row as [isNull|cells].
  { split; [by intros [record [=]]|by intros (cells & [=] & _)]. }
  assert (forall keys,
            (exists cells',
               Js.Object cells = Js.Object cells'
               /\ Forall (fun key => cells' !! key <> Some Js.Symbol) keys)
            <-> Forall (fun key => cells !! key <> Some Js.Symbol) keys) as ->.
  { intros keys. split; [by intros (cells' & [= <-] & H)|]. intros H.
    by exists cells. }
  unfold Js.processRow, convertedKeys. rewrite !Forall_cons, Forall_nil.
  destruct (Js_parseInt_converts cells "Clicks")
    as [[Hs [m ->]]|[Hn [clicks ->]]];
    [split; [by intros [record [=]]|tauto]|].
  destruct (Js_parseFloat_converts cells "Cost")
    as [[Hs [m ->]]|[Hn1 [cost ->]]];
    [split; [by intros [record [=]]|tauto]|].
  destruct (Js_parseFloat_converts cells "Avg. CPC")
    as [[Hs [m ->]]|[Hn2 [avgCpc ->]]];
    [split; [by intros [record [=]]|tauto]|].
  destruct (Js_parseInt_converts cells "Installs")
    as [[Hs [m ->]]|[Hn3 [installs ->]]];
    [split; [by intros [record [=]]|tauto]|].
  destruct (Js_parseInt_converts cells "Trials")
    as [[Hs [m ->]]|[Hn4 [trials ->]]];
    [split; [by intros [record [=]]|tauto]|].
  destruct (Js_parseInt_converts cells "Subscriptions")
    as [[Hs [m ->]]|[Hn5 [subscriptions ->]]];
    [split; [by intros [record [=]]|tauto]|].
  destruct (Js_parseFloat_converts cells "Subscription Value")
    as [[Hs [m ->]]|[Hn6 [subscriptionValue ->]]];
    [split; [by intros [record [=]]|tauto]|].
  destruct (Js_newDate_converts cells "Start Date")
    as [[Hs [m ->]]|[Hn7 [startDate ->]]];
    [split; [by intros [record [=]]|tauto]|].
  destruct (Js_newDate_converts cells "End Date")
    as [[Hs [m ->]]|[Hn8 [endDate ->]]];
    [split; [by intros [record [=]]|tauto]|].
  split; [tauto|]. intros _. by eexists.
Qed.

(** Whatever is thrown in the [try] block leaves the callback with the
    prefix that names the line of the file. *)
Lemma Js_processRow_Throw index row message :
  Js.processRow Date_parse index row = Throw message ->
  exists cause,
    message
    = "Error processing row " ++ pretty (index + 2)%nat ++ ": " ++ cause.
Proof.
  unfold Js.processRow, try_catch.
  match goal with |- match ?body with _ => _ end = _ -> _ => destruct body end;
    [done|].
  intros [= <-]. by eexists.
Qed.

End JsLoading.

(** C9.  On a row of strings, with or without its required keys, the
    callback of [data.map] does not throw, whatever the date parser
    answers.  The callback is read over rows that may hold any primitive
    value, where the conversions of [parseInt], [parseFloat] and
    [new Date] can throw: on a string and on [undefined] the three
    built-ins complete normally, with the values used throughout; on
    every row of strings the callback completes normally, with the record
    that [processRow] gives, and so does the whole of [data.map].  Over
    rows of such values it completes normally exactly when the row is an
    object none of whose nine converted keys holds a Symbol; otherwise
    the handler is entered and the error names the line of the file, as
    for the sample row with a Symbol in 'Trials'.  No exception escapes
    the load of parsed rows, and a row without any cell yields the record
    of zeros and invalid dates. *)
Theorem normalization_never_throws :
  forall Date_parse : string -> Date,
    (forall cell : option string,
        Js.parseInt (cellValue cell) = Normal (parseInt cell)
        /\ Js.parseFloat (cellValue cell) = Normal (parseFloat cell)
        /\ Js.newDate Date_parse (cellValue cell)
           = Normal (newDate Date_parse cell))
    /\ (forall index row, exists record,
        processRow Date_parse index row = Normal record
        /\ Js.processRow Date_parse index (stringRow row)
           = Normal (stringRecord record))
    /\ (forall data, exists records,
          processedData Date_parse data = Normal records
          /\ length records = length data
          /\ Js.processedData Date_parse (map stringRow data)
             = Normal (map stringRecord records))
    /\ (forall index row,
          (exists record, Js.processRow Date_parse index row = Normal record)
          <-> exists cells,
                row = Js.Object cells
                /\ Forall (fun key => cells !! key <> Some Js.Symbol)
                     convertedKeys)
    /\ (forall index row message,
          Js.processRow Date_parse index row = Throw message ->
          exists cause,
            message
            = "Error processing row " ++ pretty (index + 2)%nat ++ ": "
              ++ cause)
    /\ Js.processRow Date_parse 3 symbolRow
       = Throw "Error processing row 5: Cannot convert a Symbol value to a string"
    /\ (forall data errors headers message,
          complete Date_parse data errors headers <> Uncaught message)
    /\ (forall index, processRow Date_parse index ∅ = Normal (blankRecord index)).
Proof.
  intros Date_parse.
  split.
  { intros cell. split; [apply Js_parseInt_string|].
    split; [apply Js_parseFloat_string|apply Js_newDate_string]. }
  split; [apply Js_processRow_stringRow|].
  split; [apply Js_processedData_stringRows|].
  split; [apply Js_processRow_Normal_iff|].
  split; [apply Js_processRow_Throw|].
  split; [vm_compute; reflexivity|].
  split; [|reflexivity].
  intros data errors headers message. unfold complete.
  destruct errors; [|done].
  destruct (0 <? length (missingColumns headers))%nat; [done|].
  by destruct (processedData_Normal Date_parse data) as (records & -> & _).
Qed.

(* ===================================================================== *)
(** * The table *)
(* ===================================================================== *)

Section TableFacts.

Variable formatDay : Z -> string.
Variable formatOther : FieldValue -> completion string.
Variable toLocaleString : number -> string.
Variable reactChild : FieldValue -> completion (option string).

Lemma tableRow_valid (record : CampaignRecord) :
  hasValidDates record = true ->
  tableRow formatDay formatOther toLocaleString reactChild record
  = Normal (shownRow formatDay toLocaleString record).
Proof.
  destruct record as [i c n1 n2 n3 n4 n5 n6 n7 [|s] [|e]]; intros Hvalid;
    try discriminate Hvalid.
  reflexivity.
Qed.

Lemma tableRow_invalid (record : CampaignRecord) :
  hasValidDates record = false ->
  tableRow formatDay formatOther toLocaleString reactChild record
  = Throw "Invalid time value".
Proof.
  destruct record as [i c n1 n2 n3 n4 n5 n6 n7 [|s] [|e]]; intros Hvalid;
    try discriminate Hvalid; reflexivity.
Qed.

Lemma map_tableRow_valid (records : list CampaignRecord) index :
  forallb hasValidDates records = true ->
  map_indexed
    (fun _ row => tableRow formatDay formatOther toLocaleString reactChild row)
    index records
  = Normal (map (shownRow formatDay toLocaleString) records).
Proof.
  revert index. induction records as [|r records IH]; intros index; [done|].
  cbn [forallb map map_indexed]. intros [Hr Hrest]%andb_true_iff.
  by rewrite (tableRow_valid r Hr), (IH _ Hrest).
Qed.

Lemma map_tableRow_invalid (records : list CampaignRecord) index :
  forallb hasValidDates records = false ->
  map_indexed
    (fun _ row => tableRow formatDay formatOther toLocaleString reactChild row)
    index records
  = Throw "Invalid time value".
Proof.
  revert index. induction records as [|r records IH]; intros index; [done|].
  cbn [forallb map_indexed]. destruct (hasValidDates r) eqn:Hr.
  - cbn [andb]. intros Hrest.
    by rewrite (tableRow_valid r Hr), (IH _ Hrest).
  - intros _. by rewrite (tableRow_invalid r Hr).
Qed.

End TableFacts.


